(** * MSU Science Olympiad site: card, badge and navigation components

    A shallow embedding of [card.js] and [navigation.js].  Every function
    of the two scripts that the properties below talk about is written as
    a Rocq function of the same name; DOM state (element attributes,
    [innerHTML], [localStorage]) is passed explicitly, and an exception
    thrown by the script is a value of [JsError].

    ECMAScript strings are sequences of UTF-16 code units; a code unit is
    an [N].  *)

From Stdlib Require Import List String Ascii NArith ZArith Bool Lia Wf_nat.
From Stdlib Require Import DecimalString.
Import ListNotations.

Set Implicit Arguments.
Set Warnings "-register-all".
Local Open Scope N_scope.
Local Open Scope list_scope.

(** ** Strings *)

Definition jsstring := list N.

(** [lit s] is the script's string literal [s].  A Rocq string cannot
    hold a bare double quote; inside [lit] the character [~], which occurs
    nowhere in the two scripts, stands for the double quote U+0022. *)
Definition lit_char (a : ascii) : N :=
  if Ascii.eqb a "~" then 34 else N_of_ascii a.

Definition lit (s : string) : jsstring :=
  List.map lit_char (list_ascii_of_string s).

(** Code unit of an ASCII character. *)
Definition cu (a : ascii) : N := N_of_ascii a.

Definition isc (c : N) (a : ascii) : bool := N.eqb c (cu a).

(** The double quote U+0022. *)
Definition dquote : N := 34.

Fixpoint str_eqb (s t : jsstring) : bool :=
  match s, t with
  | [], [] => true
  | a :: s', b :: t' => N.eqb a b && str_eqb s' t'
  | _, _ => false
  end.

(** [String.prototype.startsWith]. *)
Fixpoint startsWith (s p : jsstring) : bool :=
  match p, s with
  | [], _ => true
  | b :: p', a :: s' => N.eqb a b && startsWith s' p'
  | _ :: _, [] => false
  end.

(** [String.prototype.includes]: [p] occurs in [s] as a substring. *)
Fixpoint includes (s p : jsstring) : bool :=
  startsWith s p ||
  match s with
  | [] => false
  | _ :: s' => includes s' p
  end.

(** [s.substring(a, b)] for [a <= b]; both ends are clamped to the length
    of [s]. *)
Definition substring (s : jsstring) (a b : nat) : jsstring :=
  firstn (b - a) (skipn a s).

(** [s.replace(c, '')] for a one-character pattern: the first occurrence
    of [c] is removed. *)
Fixpoint remove_first (c : N) (s : jsstring) : jsstring :=
  match s with
  | [] => []
  | a :: s' => if N.eqb a c then s' else a :: remove_first c s'
  end.

(** Decimal rendering of an integer. *)
Definition decimal (n : N) : jsstring :=
  List.map cu (list_ascii_of_string (NilZero.string_of_uint (N.to_uint n))).

(** ** Values produced by [JSON.parse] *)

Module JSON.

(** A Number is kept as the lexeme it was read from: its IEEE-754 value is
    outside this model (see [Platform] below). *)
Inductive JsVal : Type :=
| JNull
| JBool (b : bool)
| JNum (lexeme : jsstring)
| JStr (s : jsstring)
| JArr (elems : list JsVal)
| JObj (props : list (jsstring * JsVal)).

Inductive presult : Type :=
| POk (v : JsVal) (rest : jsstring)
| PSyntax
| PFuel.

(** JSON white space: tab, line feed, carriage return, space. *)
Definition is_ws (c : N) : bool :=
  N.eqb c 9 || N.eqb c 10 || N.eqb c 13 || N.eqb c 32.

Fixpoint skip_ws (s : jsstring) : jsstring :=
  match s with
  | c :: r => if is_ws c then skip_ws r else s
  | [] => []
  end.

Definition is_digit (c : N) : bool := (48 <=? c) && (c <=? 57).

Definition hexval (c : N) : option N :=
  if is_digit c then Some (c - 48)
  else if (97 <=? c) && (c <=? 102) then Some (c - 87)
  else if (65 <=? c) && (c <=? 70) then Some (c - 55)
  else None.

(** The characters of a JSON string after its opening quote, up to and
    including the closing quote; [acc] holds the decoded code units in
    reverse. *)
Fixpoint string_body (s acc : jsstring) : option (jsstring * jsstring) :=
  match s with
  | [] => None
  | c :: r =>
    if N.eqb c dquote then Some (rev acc, r)
    else if isc c "\" then
      match r with
      | [] => None
      | e :: r1 =>
        if N.eqb e dquote then string_body r1 (34 :: acc)
        else if isc e "\" then string_body r1 (92 :: acc)
        else if isc e "/" then string_body r1 (47 :: acc)
        else if isc e "b" then string_body r1 (8 :: acc)
        else if isc e "f" then string_body r1 (12 :: acc)
        else if isc e "n" then string_body r1 (10 :: acc)
        else if isc e "r" then string_body r1 (13 :: acc)
        else if isc e "t" then string_body r1 (9 :: acc)
        else if isc e "u" then
          match r1 with
          | h1 :: h2 :: h3 :: h4 :: r2 =>
            match hexval h1, hexval h2, hexval h3, hexval h4 with
            | Some a, Some b, Some c', Some d =>
              string_body r2 (((a * 16 + b) * 16 + c') * 16 + d :: acc)
            | _, _, _, _ => None
            end
          | _ => None
          end
        else None
      end
    else if c <? 32 then None
    else string_body r (c :: acc)
  end.

(** The longest prefix of decimal digits. *)
Fixpoint digits (s : jsstring) : jsstring * jsstring :=
  match s with
  | c :: r =>
    if is_digit c then let (d, r') := digits r in (c :: d, r') else ([], s)
  | [] => ([], [])
  end.

(** Integer part of a number: [0] or a non-zero digit followed by digits. *)
Definition int_part (s : jsstring) : option (jsstring * jsstring) :=
  match s with
  | c :: r =>
    if isc c "0" then Some ([c], r)
    else if is_digit c then let (d, r') := digits r in Some (c :: d, r')
    else None
  | [] => None
  end.

(** Optional fraction: a dot followed by at least one digit. *)
Definition frac_part (s : jsstring) : option (jsstring * jsstring) :=
  match s with
  | c :: r =>
    if isc c "." then
      match digits r with
      | ([], _) => None
      | (d, r') => Some (c :: d, r')
      end
    else Some ([], s)
  | [] => Some ([], [])
  end.

(** Optional exponent: [e] or [E], an optional sign, at least one digit. *)
Definition exp_part (s : jsstring) : option (jsstring * jsstring) :=
  match s with
  | c :: r =>
    if isc c "e" || isc c "E" then
      let (sign, r1) :=
        match r with
        | g :: r' => if isc g "+" || isc g "-" then ([g], r') else ([], r)
        | [] => ([], r)
        end in
      match digits r1 with
      | ([], _) => None
      | (d, r') => Some (c :: sign ++ d, r')
      end
    else Some ([], s)
  | [] => Some ([], [])
  end.

Definition number (s : jsstring) : option (jsstring * jsstring) :=
  let (sign, r0) :=
    match s with
    | c :: r => if isc c "-" then ([c], r) else ([], s)
    | [] => ([], s)
    end in
  match int_part r0 with
  | None => None
  | Some (i, r1) =>
    match frac_part r1 with
    | None => None
    | Some (f, r2) =>
      match exp_part r2 with
      | None => None
      | Some (e, r3) => Some (sign ++ i ++ f ++ e, r3)
      end
    end
  end.

(** [expect p s]: [s] without its prefix [p], when it has it. *)
Fixpoint expect (p s : jsstring) : option jsstring :=
  match p, s with
  | [], _ => Some s
  | b :: p', a :: s' => if N.eqb a b then expect p' s' else None
  | _ :: _, [] => None
  end.

(** Recursive descent over the JSON grammar of ECMA-404.  [value] reads
    one value after optional white space; [elements] reads the rest of an
    array after its opening bracket when the array is not empty; [members]
    the rest of a non-empty object.  Each call on a nested construct takes
    one unit of fuel. *)
Fixpoint value (fuel : nat) (s : jsstring) {struct fuel} : presult :=
  match fuel with
  | O => PFuel
  | S f =>
    match skip_ws s with
    | [] => PSyntax
    | c :: r =>
      if isc c "[" then
        match skip_ws r with
        | c' :: r' => if isc c' "]" then POk (JArr []) r' else elements f r []
        | [] => PSyntax
        end
      else if isc c "{" then
        match skip_ws r with
        | c' :: r' => if isc c' "}" then POk (JObj []) r' else members f r []
        | [] => PSyntax
        end
      else if N.eqb c dquote then
        match string_body r [] with
        | Some (str, r') => POk (JStr str) r'
        | None => PSyntax
        end
      else if isc c "t" then
        match expect (lit "rue") r with
        | Some r' => POk (JBool true) r'
        | None => PSyntax
        end
      else if isc c "f" then
        match expect (lit "alse") r with
        | Some r' => POk (JBool false) r'
        | None => PSyntax
        end
      else if isc c "n" then
        match expect (lit "ull") r with
        | Some r' => POk JNull r'
        | None => PSyntax
        end
      else
        match number (c :: r) with
        | Some (lexeme, r') => POk (JNum lexeme) r'
        | None => PSyntax
        end
    end
  end

with elements (fuel : nat) (s : jsstring) (acc : list JsVal) {struct fuel}
  : presult :=
  match fuel with
  | O => PFuel
  | S f =>
    match value f s with
    | POk v r =>
      match skip_ws r with
      | c :: r' =>
        if isc c "," then elements f r' (v :: acc)
        else if isc c "]" then POk (JArr (rev (v :: acc))) r'
        else PSyntax
      | [] => PSyntax
      end
    | PSyntax => PSyntax
    | PFuel => PFuel
    end
  end

with members (fuel : nat) (s : jsstring) (acc : list (jsstring * JsVal))
  {struct fuel} : presult :=
  match fuel with
  | O => PFuel
  | S f =>
    match skip_ws s with
    | q :: r =>
      if N.eqb q dquote then
        match string_body r [] with
        | Some (key, r1) =>
          match skip_ws r1 with
          | colon :: r2 =>
            if isc colon ":" then
              match value f r2 with
              | POk v r3 =>
                match skip_ws r3 with
                | c :: r4 =>
                  if isc c "," then members f r4 ((key, v) :: acc)
                  else if isc c "}" then POk (JObj (rev ((key, v) :: acc))) r4
                  else PSyntax
                | [] => PSyntax
                end
              | PSyntax => PSyntax
              | PFuel => PFuel
              end
            else PSyntax
          | [] => PSyntax
          end
        | None => PSyntax
        end
      else PSyntax
    | [] => PSyntax
    end
  end.

(** Fuel that [value] never exhausts on [s] (see [value_fuel]). *)
Definition fuel_for (s : jsstring) : nat := 2 * List.length s + 1.

(** [JSON.parse(text)]: [None] is a thrown [SyntaxError]. *)
Definition parse (text : jsstring) : option JsVal :=
  match value (fuel_for text) text with
  | POk v rest =>
    match skip_ws rest with
    | [] => Some v
    | _ :: _ => None
    end
  | _ => None
  end.

End JSON.

Import JSON.

(** ** ECMAScript operations on parsed values *)

(** The exceptions the two scripts can raise. *)
Inductive JsError : Type := SyntaxError | TypeError.

(** A computation that returns a value or throws. *)
Definition Js (A : Type) : Type := JsError + A.

Definition ret {A} (a : A) : Js A := inr a.
Definition throw {A} (e : JsError) : Js A := inl e.
Definition bind {A B} (m : Js A) (k : A -> Js B) : Js B :=
  match m with
  | inl e => inl e
  | inr a => k a
  end.

Notation "x <- m ;; k" := (bind m (fun x => k))
  (at level 61, m at next level, right associativity).

(** [l.forEach(x => body)], [s] being the variable the callback updates;
    the first throw ends the loop. *)
Fixpoint forEach {A S} (body : S -> A -> Js S) (l : list A) (s : S) : Js S :=
  match l with
  | [] => ret s
  | x :: l' => s' <- body s x ;; forEach body l' s'
  end.

(** [l.map(f)], stopping at the first throw. *)
Fixpoint mapJs {A B} (f : A -> Js B) (l : list A) : Js (list B) :=
  match l with
  | [] => ret []
  | x :: l' => y <- f x ;; ys <- mapJs f l' ;; ret (y :: ys)
  end.

(** [l.filter(f)], stopping at the first throw. *)
Fixpoint filterJs {A} (f : A -> Js bool) (l : list A) : Js (list A) :=
  match l with
  | [] => ret []
  | x :: l' =>
    keep <- f x ;; ys <- filterJs f l' ;; ret (if keep then x :: ys else ys)
  end.

(** What the host does with a Number.  Numbers are IEEE-754 doubles, which
    this development does not model: a Number is the lexeme it was written
    as, and the operations of ECMAScript that read its value are the fields
    of a [Platform].  Everything proved below holds for every platform. *)
Record Platform : Type := {
  (** [Number::toString] of the Number written as the lexeme *)
  Number_toString : jsstring -> jsstring;
  (** [ToBoolean]: the Number is neither zero nor NaN *)
  Number_truthy : jsstring -> bool;
  (** the Number is greater than zero *)
  Number_positive : jsstring -> bool;
  (** [StringToNumber] of the string is greater than zero *)
  String_positive : jsstring -> bool
}.

(** The platform on which a Number prints as it was written, which is
    what a browser prints for the alphas [0.1], [0.2] and [0.3] of
    [card.js].  The closed examples of this file are evaluated on it; none
    of them holds another Number. *)
Definition lexical : Platform := {|
  Number_toString := fun l => l;
  Number_truthy := fun l => existsb (fun c => is_digit c && negb (isc c "0")) l;
  Number_positive := fun l =>
    negb (startsWith l (lit "-")) &&
    existsb (fun c => is_digit c && negb (isc c "0")) l;
  String_positive := fun s =>
    forallb is_digit s && existsb (fun c => negb (isc c "0")) s
|}.

Section Values.

Variable P : Platform.

(** Last binding of [name]: [JSON.parse] keeps the last of repeated keys. *)
Fixpoint lookup (name : jsstring) (props : list (jsstring * JsVal))
  : option JsVal :=
  match props with
  | [] => None
  | (k, v) :: rest =>
    match lookup name rest with
    | Some v' => Some v'
    | None => if str_eqb k name then Some v else None
    end
  end.

(** [v.name] for the property names the scripts read ([text], [color],
    [href]), none of which a built-in prototype defines: an own property of
    an object, [undefined] ([None]) on any other value, [TypeError] on
    [null]. *)
Definition getProp (v : JsVal) (name : jsstring) : Js (option JsVal) :=
  match v with
  | JNull => throw TypeError
  | JObj props => ret (lookup name props)
  | _ => ret None
  end.

(** [ToString], the conversion a template literal applies.  An array
    prints as its elements joined by commas, a [null] element as the empty
    string.  An object prints through [Object.prototype.toString] unless it
    has a [toString] property of its own: a parsed property is never
    callable, and then no conversion is left but the [TypeError]. *)
Fixpoint ToString (v : JsVal) : Js jsstring :=
  match v with
  | JNull => ret (lit "null")
  | JBool true => ret (lit "true")
  | JBool false => ret (lit "false")
  | JNum l => ret (Number_toString P l)
  | JStr s => ret s
  | JArr es =>
    (fix join (l : list JsVal) : Js jsstring :=
       match l with
       | [] => ret []
       | e :: l' =>
         first <- match e with JNull => ret [] | _ => ToString e end ;;
         others <- match l' with
                   | [] => ret []
                   | _ :: _ => r <- join l' ;; ret (cu "," :: r)
                   end ;;
         ret (first ++ others)
       end) es
  | JObj props =>
    match lookup (lit "toString") props with
    | Some _ => throw TypeError
    | None => ret (lit "[object Object]")
    end
  end.

(** [ToString] of an expression that may be [undefined]. *)
Definition ToString_opt (v : option JsVal) : Js jsstring :=
  match v with
  | None => ret (lit "undefined")
  | Some v' => ToString v'
  end.

(** [ToBoolean]. *)
Definition truthy (v : option JsVal) : bool :=
  match v with
  | None | Some JNull => false
  | Some (JBool b) => b
  | Some (JNum l) => Number_truthy P l
  | Some (JStr s) => match s with [] => false | _ :: _ => true end
  | Some (JArr _) | Some (JObj _) => true
  end.

(** [v || ''] *)
Definition or_empty (v : option JsVal) : JsVal :=
  match v with
  | Some v' => if truthy v then v' else JStr []
  | None => JStr []
  end.

(** [v > 0] for a parsed value [v]: [ToPrimitive], then [ToNumber].  An
    array and an object go through their string; that of an object is no
    number. *)
Definition gt_zero (v : JsVal) : Js bool :=
  match v with
  | JNull => ret false
  | JBool b => ret b
  | JNum l => ret (Number_positive P l)
  | JStr s => ret (String_positive P s)
  | JArr _ => s <- ToString v ;; ret (String_positive P s)
  | JObj _ => _ <- ToString v ;; ret false
  end.

(** [v.length > 0]: the length of a string or an array, an own property
    [length] of an object, [undefined] on a Number or a Boolean, and
    [TypeError] on [null]. *)
Definition length_positive (v : JsVal) : Js bool :=
  match v with
  | JNull => throw TypeError
  | JArr es => ret (match es with [] => false | _ :: _ => true end)
  | JStr s => ret (match s with [] => false | _ :: _ => true end)
  | JObj props =>
    match lookup (lit "length") props with
    | Some l => gt_zero l
    | None => ret false
    end
  | JBool _ | JNum _ => ret false
  end.

(** [v.forEach(body)]: only an array has a callable [forEach]. *)
Definition forEach_val {S} (v : JsVal) (body : S -> JsVal -> Js S) (s : S)
  : Js S :=
  match v with
  | JArr es => forEach body es s
  | _ => throw TypeError
  end.

End Values.

(** [getAttribute(name) || dflt] *)
Definition attr_or (a : option jsstring) (dflt : jsstring) : jsstring :=
  match a with
  | Some (c :: s) => c :: s
  | Some [] | None => dflt
  end.

(** [if (a)] for an attribute value: present and not empty. *)
Definition attr_truthy (a : option jsstring) : bool :=
  match a with
  | Some (_ :: _) => true
  | Some [] | None => false
  end.

(** [a === s] for an attribute value. *)
Definition attr_is (a : option jsstring) (s : jsstring) : bool :=
  match a with
  | Some a' => str_eqb a' s
  | None => false
  end.

(** * card.js *)

(** ** [class MsuBadge] *)

Module MsuBadge.

(** White space that [parseInt] skips: [WhiteSpace] and [LineTerminator]
    of ECMA-262. *)
Definition is_StrWhiteSpaceChar (c : N) : bool :=
  existsb (N.eqb c)
    [9; 10; 11; 12; 13; 32; 160; 5760; 8232; 8233; 8239; 8287; 12288; 65279]
  || ((8192 <=? c) && (c <=? 8202)).

Fixpoint trim_start (s : jsstring) : jsstring :=
  match s with
  | c :: r => if is_StrWhiteSpaceChar c then trim_start r else s
  | [] => []
  end.

(** Value of the longest prefix of hexadecimal digits, most significant
    first; [None] when there is no such digit. *)
Fixpoint hex_prefix (s : jsstring) (acc : option Z) : option Z :=
  match s with
  | c :: r =>
    match hexval c with
    | Some d =>
      hex_prefix r
        (Some (match acc with Some a => a * 16 + Z.of_N d | None => Z.of_N d end)%Z)
    | None => acc
    end
  | [] => acc
  end.

(** [parseInt(s, 16)]; [None] is [NaN].  The integer is exact, as the
    Number is for the at most two characters [addAlpha] passes. *)
Definition parseInt16 (s : jsstring) : option Z :=
  let s1 := trim_start s in
  let (negative, s2) :=
    match s1 with
    | c :: r =>
      if isc c "-" then (true, r) else if isc c "+" then (false, r)
      else (false, s1)
    | [] => (false, s1)
    end in
  let s3 :=
    match s2 with
    | z :: x :: r =>
      if isc z "0" && (isc x "x" || isc x "X") then r else s2
    | _ => s2
    end in
  match hex_prefix s3 None with
  | Some n => Some (if negative then - n else n)%Z
  | None => None
  end.

(** [ToString] of the result of [parseInt]; minus zero prints as [0]. *)
Definition int_toString (n : option Z) : jsstring :=
  match n with
  | None => lit "NaN"
  | Some (Zneg p) => cu "-" :: decimal (Npos p)
  | Some z => decimal (Z.to_N z)
  end.

(** [s.match(/\d+/g)]: the maximal runs of decimal digits, in order ([[]]
    stands for [null]: the script reads the result only when it has three
    entries); [cur] is the run being read, reversed. *)
Fixpoint digit_runs (s cur : jsstring) : list jsstring :=
  match s with
  | [] => match cur with [] => [] | _ :: _ => [rev cur] end
  | c :: r =>
    if is_digit c then digit_runs r (c :: cur)
    else match cur with
         | [] => digit_runs r []
         | _ :: _ => rev cur :: digit_runs r []
         end
  end.

Section Badge.

Variable P : Platform.

(** [addAlpha(color, alpha)], [card.js] lines 210-230; [alpha] is the
    lexeme of the Number passed. *)
Definition addAlpha (color alpha : jsstring) : jsstring :=
  if startsWith color (lit "#") then
    let hex := remove_first (cu "#") color in
    let r := parseInt16 (substring hex 0 2) in
    let g := parseInt16 (substring hex 2 4) in
    let b := parseInt16 (substring hex 4 6) in
    lit "rgba(" ++ int_toString r ++ lit ", " ++ int_toString g ++ lit ", "
      ++ int_toString b ++ lit ", " ++ Number_toString P alpha ++ lit ")"
  else
    match
      (if startsWith color (lit "rgb") then digit_runs color [] else [])
    with
    | m0 :: m1 :: m2 :: _ =>
      lit "rgba(" ++ m0 ++ lit ", " ++ m1 ++ lit ", " ++ m2 ++ lit ", "
        ++ Number_toString P alpha ++ lit ")"
    | _ => color
    end.

(** [getCustomColorStyles(color, isDarkTheme)], lines 191-205. *)
Definition getCustomColorStyles (color : jsstring) (isDarkTheme : bool)
  : jsstring :=
  if isDarkTheme then
    lit "
                background: linear-gradient(90deg, "
    ++ addAlpha color (lit "0.3") ++ lit ", " ++ addAlpha color (lit "0.2")
    ++ lit ");
                color: #ffffff;
                border: 1px solid " ++ addAlpha color (lit "0.1") ++ lit ";
            "
  else
    lit "
                background-color: " ++ addAlpha color (lit "0.1") ++ lit ";
                color: " ++ color ++ lit ";
                border: 1px solid " ++ addAlpha color (lit "0.2") ++ lit ";
            ".

(** [card.js] lines 107-118: the style block every badge starts with. *)
Definition badge_base_styles : jsstring := lit "
            .badge {
                display: inline-block;
                padding: 0.25rem 0.75rem;
                font-size: 0.875rem;
                font-weight: 500;
                border-radius: 9999px;
                margin-right: 0.5rem;
                margin-bottom: 0.5rem;
                transition: all 200ms ease-in-out;
            }
        ".

(** [card.js] lines 130-136. *)
Definition purple_dark_styles : jsstring := lit "
                    .badge {
                        background: linear-gradient(90deg, rgba(109,40,217,0.28), rgba(159,122,234,0.28));
                        color: #ffffff;
                        border: 1px solid rgba(159,122,234,0.08);
                    }
                ".

(** [card.js] lines 138-144. *)
Definition purple_light_styles : jsstring := lit "
                    .badge {
                        background-color: #f3e8ff;
                        color: #6d28d9;
                        border: 1px solid rgba(109,40,217,0.28);
                    }
                ".

(** [card.js] lines 148-154. *)
Definition orange_dark_styles : jsstring := lit "
                    .badge {
                        background: linear-gradient(90deg, rgba(180,83,9,0.28), rgba(245,158,11,0.28));
                        color: #ffffff;
                        border: 1px solid rgba(245,158,11,0.08);
                    }
                ".

(** [card.js] lines 156-162. *)
Definition orange_light_styles : jsstring := lit "
                    .badge {
                        background-color: #fff7ed;
                        color: #b45309;
                        border: 1px solid rgba(180,83,9,0.28);
                    }
                ".

(** [card.js] lines 167-173. *)
Definition default_dark_styles : jsstring := lit "
                    .badge {
                        background-color: #1a2622;
                        color: #4ade80;
                        border: none;
                    }
                ".

(** [card.js] lines 175-181. *)
Definition default_light_styles : jsstring := lit "
                    .badge {
                        background-color: #dcfce7;
                        color: #1a9659;
                        border: none;
                    }
                ".

(** [getBadgeStyles(variant, customColor, isDarkTheme)], lines 101-186;
    an absent attribute is [None] (the script's [null]). *)
Definition getBadgeStyles (variant customColor : option jsstring)
  (isDarkTheme : bool) : jsstring :=
  badge_base_styles ++
  match customColor with
  | Some (c :: color) =>
    lit "
                .badge {
                    " ++ getCustomColorStyles (c :: color) isDarkTheme ++ lit "
                }
            "
  | Some [] | None =>
    if attr_is variant (lit "purple") then
      if isDarkTheme then purple_dark_styles else purple_light_styles
    else if attr_is variant (lit "orange") then
      if isDarkTheme then orange_dark_styles else orange_light_styles
    else
      if isDarkTheme then default_dark_styles else default_light_styles
  end.

(** [render()], lines 79-96: the markup assigned to the shadow root, from
    the element's [variant] and [color] attributes and the document's
    [data-theme] attribute. *)
Definition render (variant color dataTheme : option jsstring) : jsstring :=
  let isDarkTheme := attr_is dataTheme (lit "dark") in
  let styles := getBadgeStyles variant color isDarkTheme in
  lit "
            <style>
                " ++ styles ++ lit "
            </style>
            <span class=~badge~><slot></slot></span>
        ".

End Badge.

End MsuBadge.

(** ** [class MsuCard] *)

Module MsuCard.

(** The element's attributes as [getAttribute] returns them: [None] is
    [null], an attribute that is not set. *)
Record Attrs : Type := {
  title : option jsstring;
  description : option jsstring;
  badges : option jsstring;
  color_badges : option jsstring;
  variant : option jsstring;
  icon : option jsstring;
  href : option jsstring
}.

(** One call of [console.warn(message, value)]. *)
Definition Warning : Type := (jsstring * jsstring)%type.

(** The serialization of one code unit of a text node (the HTML fragment
    serialization algorithm, outside attribute mode). *)
Definition escape_unit (c : N) : jsstring :=
  if isc c "&" then lit "&amp;"
  else if N.eqb c 160 then lit "&nbsp;"
  else if isc c "<" then lit "&lt;"
  else if isc c ">" then lit "&gt;"
  else [c].

(** [escapeHtml(text)], lines 367-371: [text] becomes the text content of
    a fresh [div], whose [innerHTML] is returned. *)
Definition escapeHtml (text : jsstring) : jsstring :=
  flat_map escape_unit text.

Section Card.

Variable P : Platform.

(** The string a parsed value becomes when assigned to [textContent]:
    [null] is the empty string, anything else goes through [ToString]. *)
Definition textContent_of (v : JsVal) : Js jsstring :=
  match v with
  | JNull => ret []
  | _ => ToString P v
  end.

(** [escapeHtml] applied to a parsed value. *)
Definition escapeHtml_of (v : JsVal) : Js jsstring :=
  text <- textContent_of v ;; ret (escapeHtml text).

(** Body of the [colorBadges.forEach] callback, lines 332-344. *)
Definition colorBadge (html : jsstring) (badge : JsVal) : Js jsstring :=
  t <- getProp badge (lit "text") ;;
  c <- getProp badge (lit "color") ;;
  let text := or_empty P t in
  let color := or_empty P c in
  let is_variant :=
    match color with
    | JStr s => str_eqb s (lit "purple") || str_eqb s (lit "orange")
    | _ => false
    end in
  if is_variant then
    value <- ToString P color ;;
    escaped <- escapeHtml_of text ;;
    ret (html ++ lit "<msu-badge variant=~" ++ value ++ lit "~>"
           ++ escaped ++ lit "</msu-badge>")
  else if truthy P (Some color) then
    value <- ToString P color ;;
    escaped <- escapeHtml_of text ;;
    ret (html ++ lit "<msu-badge color=~" ++ value ++ lit "~>"
           ++ escaped ++ lit "</msu-badge>")
  else
    escaped <- escapeHtml_of text ;;
    ret (html ++ lit "<msu-badge>" ++ escaped ++ lit "</msu-badge>").

(** Body of the [badges.forEach] callback, lines 347-349. *)
Definition plainBadge (html : jsstring) (text : JsVal) : Js jsstring :=
  escaped <- escapeHtml_of text ;;
  ret (html ++ lit "<msu-badge>" ++ escaped ++ lit "</msu-badge>").

(** Lines 286-296: [JSON.parse] inside [try]; on a [SyntaxError] the
    variable keeps its initial [[]] and one warning is logged. *)
Definition parse_or_warn (message json : jsstring) : JsVal * list Warning :=
  match JSON.parse json with
  | Some v => (v, [])
  | None => (JArr [], [(message, json)])
  end.

(** Lines 327-352: the badge container appended to [html]. *)
Definition badgeContainer (colorBadges badges : JsVal) (html : jsstring)
  : Js jsstring :=
  some_color <- length_positive P colorBadges ;;
  some <- (if some_color then ret true else length_positive P badges) ;;
  if some then
    html1 <- forEach_val colorBadges colorBadge
               (html ++ lit "<div class=~card-badges~>") ;;
    html2 <- forEach_val badges plainBadge html1 ;;
    ret (html2 ++ lit "</div>")
  else ret html.

(** [render()], lines 273-362: the warnings logged, and the markup
    assigned to the element's [innerHTML] unless the call throws. *)
Definition render (a : Attrs) : list Warning * Js jsstring :=
  let title := attr_or (title a) (lit "Untitled") in
  let description := attr_or (description a) [] in
  let badgesJson := attr_or (badges a) (lit "[]") in
  let colorBadgesJson := attr_or (color_badges a) (lit "[]") in
  let (badges, w1) :=
    parse_or_warn (lit "Failed to parse badges JSON:") badgesJson in
  let (colorBadges, w2) :=
    parse_or_warn (lit "Failed to parse color-badges JSON:") colorBadgesJson in
  let cardClass :=
    lit "card" ++
    (if attr_is (variant a) (lit "green") then lit " card-green" else []) in
  let html0 :=
    if attr_truthy (href a) then
      lit "<a href=~" ++ escapeHtml (attr_or (href a) [])
      ++ lit "~ class=~card-link~ style=~text-decoration: none; color: inherit; display: block;~>"
    else [] in
  let html1 := html0 ++ lit "<div class=~" ++ cardClass ++ lit "~>" in
  let html2 :=
    if attr_truthy (icon a) then
      html1 ++ lit "<div style=~font-size: 3rem; margin-bottom: var(--space-4);~>
                <ion-icon name=~" ++ attr_or (icon a) [] ++ lit "~ style=~font-size:3rem;~></ion-icon>
            </div>"
    else html1 in
  let html3 :=
    html2 ++ lit "<h4 class=~card-title~>" ++ escapeHtml title ++ lit "</h4>" in
  let html4 :=
    match description with
    | _ :: _ =>
      html3 ++ lit "<p class=~card-text~>" ++ escapeHtml description
      ++ lit "</p>"
    | [] => html3
    end in
  (w1 ++ w2,
   html5 <- badgeContainer colorBadges badges html4 ;;
   let html6 := html5 ++ lit "</div>" in
   ret (if attr_truthy (href a) then html6 ++ lit "</a>" else html6)).

End Card.

(** The element with no attribute set. *)
Definition no_attrs : Attrs :=
  {| title := None; description := None; badges := None;
     color_badges := None; variant := None; icon := None; href := None |}.

End MsuCard.

(** ** The theme observer, lines 383-400 *)

(** A mounted [msu-badge]: its two attributes and the markup of its
    shadow root. *)
Record Badge : Type := {
  badge_variant : option jsstring;
  badge_color : option jsstring;
  shadowRoot : jsstring
}.

(** [badge.render()] on a mounted badge, [dataTheme] being the
    [data-theme] attribute of the document element at that moment. *)
Definition badge_render (P : Platform) (dataTheme : option jsstring)
  (b : Badge) : Badge :=
  {| badge_variant := badge_variant b;
     badge_color := badge_color b;
     shadowRoot :=
       MsuBadge.render P (badge_variant b) (badge_color b) dataTheme |}.

(** The callback of the [MutationObserver], lines 385-394: for every
    record whose [attributeName] is [data-theme], every badge of the
    document renders again.  A record is its [attributeName]; [badges] is
    what [document.querySelectorAll('msu-badge')] finds. *)
Definition observer (P : Platform) (mutations : list (option jsstring))
  (dataTheme : option jsstring) (badges : list Badge) : list Badge :=
  fold_left
    (fun bs attributeName =>
       if attr_is attributeName (lit "data-theme")
       then List.map (badge_render P dataTheme) bs
       else bs)
    mutations badges.

(** * navigation.js *)

(** A link entry [{ href, text }] as an object value. *)
Definition link (href text : jsstring) : JsVal :=
  JObj [(lit "href", JStr href); (lit "text", JStr text)].

(** [defaultSiteLinks], lines 7-10. *)
Definition defaultSiteLinks : list JsVal :=
  [link (lit "/index.html") (lit "Home");
   link (lit "/future.html") (lit "Demo")].

(** [siteConfig], lines 13-17. *)
Module siteConfig.
Definition brandName : jsstring := lit "MSU SO".
Definition email : jsstring := lit "scioly@msuso.org".
Definition description : jsstring :=
  lit "Supporting Michigan Science Olympiad through tournament volunteering, resources, and community building.".
End siteConfig.

(** The elements of a string as the spread syntax iterates it: one string
    per code point, a surrogate pair staying together. *)
Fixpoint code_points (s : jsstring) : list jsstring :=
  match s with
  | [] => []
  | c :: r =>
    match r with
    | d :: r' =>
      if (55296 <=? c) && (c <=? 56319) && (56320 <=? d) && (d <=? 57343)
      then [c; d] :: code_points r'
      else [c] :: code_points r
    | [] => [[c]]
    end
  end.

(** [...v] inside an array literal: an array and a string are iterable,
    no other parsed value is. *)
Definition spread (v : JsVal) : Js (list JsVal) :=
  match v with
  | JArr es => ret es
  | JStr s => ret (List.map JStr (code_points s))
  | _ => throw TypeError
  end.

(** [pageLinksAttr ? JSON.parse(pageLinksAttr) : []], lines 31-32 and
    206-207; [JSON.parse] is not guarded and its [SyntaxError] escapes. *)
Definition parsePageLinks (pageLinksAttr : option jsstring) : Js JsVal :=
  match pageLinksAttr with
  | Some (c :: s) =>
    match JSON.parse (c :: s) with
    | Some v => ret v
    | None => throw SyntaxError
    end
  | Some [] | None => ret (JArr [])
  end.

(** One item of a link list, [link.href] and [link.text] printed inside
    the markup the caller gives: what comes before the address, between
    the address and the text, and after the text. *)
Definition linkItem (P : Platform) (before between after : jsstring)
  (l : JsVal) : Js jsstring :=
  h <- getProp l (lit "href") ;;
  href <- ToString_opt P h ;;
  t <- getProp l (lit "text") ;;
  text <- ToString_opt P t ;;
  ret (before ++ href ++ between ++ text ++ after).

(** ** The theme flag *)

(** The four nodes of the navbar that show the theme. *)
Record ThemeButtons : Type := {
  themeIcon : jsstring;        (* [name] of [#themeIcon] *)
  themeText : jsstring;        (* text of [#themeText] *)
  mobileThemeIcon : jsstring;  (* [name] of [#mobileThemeIcon] *)
  mobileThemeText : jsstring   (* text of [#mobileThemeText] *)
}.

(** The mutable state the theme code reads and writes. *)
Record Theme : Type := {
  data_theme : option jsstring;  (* [data-theme] of the document element *)
  stored : option jsstring;      (* [localStorage.getItem('theme')] *)
  buttons : ThemeButtons
}.

(** ** [class MsuNavbar] *)

Module MsuNavbar.

Section Navbar.

Variable P : Platform.

(** The site-wide list the element merges the page's links into; the
    script's is [defaultSiteLinks]. *)
Variable siteLinks : list JsVal.

(** Lines 43-45. *)
Definition desktopNavLinks (links : list JsVal) : Js jsstring :=
  items <- mapJs (linkItem P (lit "<li><a href=~")
                    (lit "~ class=~navbar-link~>") (lit "</a></li>"))
             links ;;
  ret (List.concat items).

(** Lines 48-50. *)
Definition mobileNavLinks (links : list JsVal) : Js jsstring :=
  items <- mapJs (linkItem P (lit "<li><a href=~")
                    (lit "~ class=~mobile-menu-link~>") (lit "</a></li>"))
             links ;;
  ret (List.concat items).

(** [navigation.js] lines 52-96, literal part 1 of the navbar markup. *)
Definition navbar_html_1 : jsstring := lit "
            <nav class=~navbar~>
                <div class=~container navbar-content~>
                    <div class=~navbar-brand~>".

(** [navigation.js] lines 52-96, literal part 2 of the navbar markup. *)
Definition navbar_html_2 : jsstring := lit "</div>
                    
                    <!-- Desktop Navigation -->
                    <ul class=~navbar-nav~>
                        ".

(** [navigation.js] lines 52-96, literal part 3 of the navbar markup. *)
Definition navbar_html_3 : jsstring := lit "
                    </ul>
                    
                    <!-- Theme Toggle & Mobile Menu Button -->
                    <div style=~display: flex; align-items: center; gap: var(--space-3);~>
                        <button class=~theme-toggle~ id=~themeToggle~ aria-label=~Toggle dark mode~>
                            <ion-icon id=~themeIcon~ name=~moon-outline~ style=~font-size:1.2rem; vertical-align:middle;~></ion-icon>
                            <span id=~themeText~>Dark</span>
                        </button>
                        <button class=~navbar-toggle~ id=~mobileMenuToggle~ aria-label=~Open menu~>
                            <ion-icon id=~mobileMenuIcon~ name=~menu-outline~ style=~font-size:1.4rem;~></ion-icon>
                        </button>
                    </div>
                </div>
            </nav>

            <!-- Mobile Menu Overlay -->
            <div class=~mobile-menu-overlay~ id=~mobileMenuOverlay~></div>

            <!-- Mobile Menu Drawer -->
            <div class=~mobile-menu~ id=~mobileMenu~>
                <div class=~mobile-menu-header~>
                    <div class=~mobile-menu-brand~>".

(** [navigation.js] lines 52-96, literal part 4 of the navbar markup. *)
Definition navbar_html_4 : jsstring := lit "</div>
                    <button class=~mobile-menu-close~ id=~mobileMenuClose~ aria-label=~Close menu~>
                        <ion-icon id=~mobileCloseIcon~ name=~close-outline~ style=~font-size:1.2rem;~></ion-icon>
                    </button>
                </div>
                <ul class=~mobile-menu-nav~>
                    ".

(** [navigation.js] lines 52-96, literal part 5 of the navbar markup. *)
Definition navbar_html_5 : jsstring := lit "
                </ul>
                <div class=~mobile-menu-footer~>
                    <button class=~theme-toggle~ id=~mobileThemeToggle~ aria-label=~Toggle dark mode~ style=~width: 100%; display:flex; align-items:center; justify-content:center; gap: .5rem;~>
                        <ion-icon id=~mobileThemeIcon~ name=~moon-outline~ style=~font-size:1.1rem;~></ion-icon>
                        <span id=~mobileThemeText~>Dark Mode</span>
                    </button>
                </div>
            </div>
        ".

(** [render(links)], lines 41-97: the markup assigned to [innerHTML]. *)
Definition render (links : list JsVal) : Js jsstring :=
  desktop <- desktopNavLinks links ;;
  mobile <- mobileNavLinks links ;;
  ret (navbar_html_1 ++ siteConfig.brandName ++ navbar_html_2 ++ desktop
         ++ navbar_html_3 ++ siteConfig.brandName ++ navbar_html_4 ++ mobile
         ++ navbar_html_5).

(** The list [connectedCallback] hands to [render], lines 31-35. *)
Definition allLinks (pageLinksAttr : option jsstring) : Js (list JsVal) :=
  pageLinks <- parsePageLinks pageLinksAttr ;;
  page <- spread pageLinks ;;
  ret (siteLinks ++ page).

(** The buttons as [render] creates them, lines 64-67 and 90-93. *)
Definition rendered_buttons : ThemeButtons :=
  {| themeIcon := lit "moon-outline"; themeText := lit "Dark";
     mobileThemeIcon := lit "moon-outline";
     mobileThemeText := lit "Dark Mode" |}.

(** [updateThemeButtons(theme)], lines 182-196, all four nodes being in
    the navbar. *)
Definition updateThemeButtons (theme : option jsstring) : ThemeButtons :=
  let iconName :=
    if attr_is theme (lit "dark") then lit "sunny-outline"
    else lit "moon-outline" in
  let text := if attr_is theme (lit "dark") then lit "Light" else lit "Dark" in
  {| themeIcon := iconName; themeText := text;
     mobileThemeIcon := iconName; mobileThemeText := text ++ lit " Mode" |}.

(** The read at the start of [setupThemeToggle], lines 159-162:
    [localStorage.getItem('theme') || 'light'] becomes [data-theme]. *)
Definition setupThemeToggle (st : Theme) : Theme :=
  let currentTheme := attr_or (stored st) (lit "light") in
  {| data_theme := Some currentTheme;
     stored := stored st;
     buttons := updateThemeButtons (Some currentTheme) |}.

(** [toggleTheme], lines 164-171, the handler of both toggle buttons. *)
Definition toggleTheme (st : Theme) : Theme :=
  let newTheme :=
    if attr_is (data_theme st) (lit "light") then lit "dark"
    else lit "light" in
  {| data_theme := Some newTheme;
     stored := Some newTheme;
     buttons := updateThemeButtons (Some newTheme) |}.

(** [connectedCallback()], lines 29-39: the navbar's [innerHTML] and the
    theme state after [attachEventListeners] has run [setupThemeToggle]. *)
Definition connectedCallback (pageLinksAttr : option jsstring) (st : Theme)
  : Js (jsstring * Theme) :=
  links <- allLinks pageLinksAttr ;;
  html <- render links ;;
  ret (html, setupThemeToggle st).

End Navbar.

(** [classList.add(token)] and [classList.remove(token)] on the token set
    of an element, kept in order and without repeats. *)
Definition classList_add (token : jsstring) (tokens : list jsstring)
  : list jsstring :=
  if existsb (str_eqb token) tokens then tokens else tokens ++ [token].

Definition classList_remove (token : jsstring) (tokens : list jsstring)
  : list jsstring :=
  List.filter (fun t => negb (str_eqb t token)) tokens.

(** What the drawer code reads and writes: the classes of
    [#mobileMenuOverlay] and of [#mobileMenu], [document.body.style.overflow]
    and the field [mobileMenuOpen]. *)
Record Drawer : Type := {
  overlay_classes : list jsstring;
  menu_classes : list jsstring;
  body_overflow : jsstring;
  mobileMenuOpen : bool
}.

(** The drawer after the constructor and [render], lines 26, 76 and 79,
    on a page whose body has no inline [overflow]. *)
Definition rendered_drawer : Drawer :=
  {| overlay_classes := [lit "mobile-menu-overlay"];
     menu_classes := [lit "mobile-menu"];
     body_overflow := [];
     mobileMenuOpen := false |}.

(** [openMobileMenu()], lines 130-140, both nodes being in the navbar. *)
Definition openMobileMenu (d : Drawer) : Drawer :=
  {| overlay_classes := classList_add (lit "active") (overlay_classes d);
     menu_classes := classList_add (lit "active") (menu_classes d);
     body_overflow := lit "hidden";
     mobileMenuOpen := true |}.

(** [closeMobileMenu()], lines 142-152. *)
Definition closeMobileMenu (d : Drawer) : Drawer :=
  {| overlay_classes := classList_remove (lit "active") (overlay_classes d);
     menu_classes := classList_remove (lit "active") (menu_classes d);
     body_overflow := [];
     mobileMenuOpen := false |}.

End MsuNavbar.

(** ** [class MsuFooter] *)

Module MsuFooter.

(** The filter of lines 210-212:
    [!link.href.includes('#home') && link.href !== 'index.html'].
    [includes] is a method of strings and of arrays only. *)
Definition keeps (l : JsVal) : Js bool :=
  h <- getProp l (lit "href") ;;
  home <- match h with
          | Some (JStr s) => ret (includes s (lit "#home"))
          | Some (JArr es) =>
            ret (existsb (fun e => match e with
                                   | JStr s => str_eqb s (lit "#home")
                                   | _ => false
                                   end) es)
          | _ => throw TypeError
          end ;;
  ret (negb home &&
       negb (match h with
             | Some (JStr s) => str_eqb s (lit "index.html")
             | _ => false
             end)).

Section Footer.

Variable P : Platform.

(** The site-wide list, as for the navbar. *)
Variable siteLinks : list JsVal.

(** The list [connectedCallback] hands to [render], lines 206-212. *)
Definition allLinks (pageLinksAttr : option jsstring) : Js (list JsVal) :=
  pageLinks <- parsePageLinks pageLinksAttr ;;
  page <- spread pageLinks ;;
  filterJs keeps (siteLinks ++ page).

(** Lines 218-220. *)
Definition quickLinks (links : list JsVal) : Js jsstring :=
  items <- mapJs (linkItem P (lit "<li><a href=~")
                    (lit "~ style=~color: var(--color-text-secondary); font-size: var(--font-size-sm);~>")
                    (lit "</a></li>")) links ;;
  ret (List.concat items).

(** [navigation.js] lines 222-253, literal part 1 of the footer markup. *)
Definition footer_html_1 : jsstring := lit "
            <footer class=~bg-secondary~ style=~padding: var(--space-12) 0; margin-top: var(--space-16);~>
                <div class=~container~>
                    <div class=~grid grid-3~>
                        <div>
                            <h4 style=~color: var(--color-primary); margin-bottom: var(--space-4);~>MSU Science Olympiad</h4>
                            <p style=~color: var(--color-text-secondary); font-size: var(--font-size-sm);~>
                                ".

(** [navigation.js] lines 222-253, literal part 2 of the footer markup. *)
Definition footer_html_2 : jsstring := lit "
                            </p>
                        </div>
                        <div>
                            <h5 style=~margin-bottom: var(--space-3);~>Quick Links</h5>
                            <ul style=~list-style: none; display: flex; flex-direction: column; gap: var(--space-2);~>
                                ".

(** [navigation.js] lines 222-253, literal part 3 of the footer markup. *)
Definition footer_html_3 : jsstring := lit "
                            </ul>
                        </div>
                        <div>
                            <h5 style=~margin-bottom: var(--space-3);~>Connect</h5>
                            <p style=~color: var(--color-text-secondary); font-size: var(--font-size-sm);~>
                                Email: <a href=~mailto:".

(** [navigation.js] lines 222-253, literal part 4 of the footer markup. *)
Definition footer_html_4 : jsstring := lit "~>".

(** [navigation.js] lines 222-253, literal part 5 of the footer markup. *)
Definition footer_html_5 : jsstring := lit "</a><br>
                                Follow us on social media for updates and announcements.
                            </p>
                        </div>
                    </div>
                    <div style=~text-align: center; margin-top: var(--space-8); padding-top: var(--space-6); border-top: 1px solid var(--color-border);~>
                        <p style=~color: var(--color-text-tertiary); font-size: var(--font-size-sm);~>
                            &copy; ".

(** [navigation.js] lines 222-253, literal part 6 of the footer markup. *)
Definition footer_html_6 : jsstring := lit " Michigan State University Science Olympiad
                        </p>
                    </div>
                </div>
            </footer>
        ".

(** [render(links)], lines 217-254; [year] is
    [new Date().getFullYear()]. *)
Definition render (year : N) (links : list JsVal) : Js jsstring :=
  quick <- quickLinks links ;;
  ret (footer_html_1 ++ siteConfig.description ++ footer_html_2 ++ quick
         ++ footer_html_3 ++ siteConfig.email ++ footer_html_4
         ++ siteConfig.email ++ footer_html_5 ++ decimal year
         ++ footer_html_6).

(** [connectedCallback()], lines 204-215: the footer's [innerHTML]. *)
Definition connectedCallback (year : N) (pageLinksAttr : option jsstring)
  : Js jsstring :=
  links <- allLinks pageLinksAttr ;;
  render year links.

End Footer.

End MsuFooter.

(** * Vocabulary of the properties *)

Import MsuCard.

(** The value a badge attribute stands for: its parsed JSON, or the empty
    array when it does not parse. *)
Definition parsed (json : option jsstring) : JsVal :=
  match JSON.parse (attr_or json (lit "[]")) with
  | Some v => v
  | None => JArr []
  end.

(** The markup before the title. *)
Definition card_open (a : Attrs) : jsstring :=
  (if attr_truthy (href a) then
     lit "<a href=~" ++ escapeHtml (attr_or (href a) [])
     ++ lit "~ class=~card-link~ style=~text-decoration: none; color: inherit; display: block;~>"
   else [])
  ++ lit "<div class=~"
  ++ (lit "card" ++
      (if attr_is (variant a) (lit "green") then lit " card-green" else []))
  ++ lit "~>"
  ++ (if attr_truthy (icon a) then
        lit "<div style=~font-size: 3rem; margin-bottom: var(--space-4);~>
                <ion-icon name=~" ++ attr_or (icon a) [] ++ lit "~ style=~font-size:3rem;~></ion-icon>
            </div>"
      else []).

Definition card_title (a : Attrs) : jsstring :=
  lit "<h4 class=~card-title~>"
  ++ escapeHtml (attr_or (title a) (lit "Untitled")) ++ lit "</h4>".

Definition card_text (a : Attrs) : jsstring :=
  match attr_or (description a) [] with
  | _ :: _ =>
    lit "<p class=~card-text~>" ++ escapeHtml (attr_or (description a) [])
    ++ lit "</p>"
  | [] => []
  end.

Definition card_close (a : Attrs) : jsstring :=
  lit "</div>" ++ (if attr_truthy (href a) then lit "</a>" else []).

(** A card with a title and a link whose address holds a [<]. *)
Definition linked_card : Attrs :=
  {| title := Some (lit "Lab"); description := None; badges := None;
     color_badges := None; variant := None; icon := None;
     href := Some (lit "a<b") |}.

(** A card that uses every attribute. *)
Definition sample_card : Attrs :=
  {| title := Some (lit "<script>");
     description := Some (lit "a & b");
     badges := Some (lit "[~A~,~B~]");
     color_badges :=
       Some (lit "[{~text~:~Build~,~color~:~purple~},{~text~:~X<~,~color~:~#fff~},{~text~:~Y~}]");
     variant := Some (lit "green");
     icon := Some (lit "flask-outline");
     href := Some (lit "events/a?x=1&y=2") |}.

Definition sample_markup : jsstring :=
  lit "<a href=~events/a?x=1&amp;y=2~ class=~card-link~ style=~text-decoration: none; color: inherit; display: block;~><div class=~card card-green~><div style=~font-size: 3rem; margin-bottom: var(--space-4);~>
                <ion-icon name=~flask-outline~ style=~font-size:3rem;~></ion-icon>
            </div><h4 class=~card-title~>&lt;script&gt;</h4><p class=~card-text~>a &amp; b</p><div class=~card-badges~><msu-badge variant=~purple~>Build</msu-badge><msu-badge color=~#fff~>X&lt;</msu-badge><msu-badge>Y</msu-badge><msu-badge>A</msu-badge><msu-badge>B</msu-badge></div></div></a>".

(** The three ways a card writes a badge. *)
Inductive BadgeKind : Type :=
| ByVariant (name : jsstring)
| ByColor (value : jsstring)
| DefaultBadge.

(** The kind the specification gives to a colour value: a named variant,
    any other non-empty value, or none. *)
Definition classify (color : option jsstring) : BadgeKind :=
  match color with
  | Some (c :: s) =>
    if str_eqb (c :: s) (lit "purple") || str_eqb (c :: s) (lit "orange")
    then ByVariant (c :: s) else ByColor (c :: s)
  | Some [] | None => DefaultBadge
  end.

(** The badge element of a kind around an escaped text. *)
Definition badgeElement (k : BadgeKind) (text : jsstring) : jsstring :=
  match k with
  | ByVariant name => lit "<msu-badge variant=~" ++ name ++ lit "~>"
  | ByColor value => lit "<msu-badge color=~" ++ value ++ lit "~>"
  | DefaultBadge => lit "<msu-badge>"
  end ++ escapeHtml text ++ lit "</msu-badge>".

(** The value a badge of kind [k] carries in its opening tag is the
    string of the entry's [color], as it is. *)
Definition raw_value (P : Platform) (color : option JsVal) (k : BadgeKind)
  : Prop :=
  match k with
  | ByVariant v | ByColor v => ToString P (or_empty P color) = ret v
  | DefaultBadge => True
  end.

(** The element [m] written for the entry [e] of the colour list: the
    text of the entry, or the empty string when it has none, escaped,
    in a badge of one of the three kinds. *)
Definition colorBadge_escaped (P : Platform) (e : JsVal) (m : jsstring)
  : Prop :=
  exists t c text k,
    getProp e (lit "text") = ret t /\
    getProp e (lit "color") = ret c /\
    textContent_of P (or_empty P t) = ret text /\
    raw_value P c k /\
    m = badgeElement k text.

(** The element [m] written for the entry [t] of the plain list: its
    text, escaped, in a default badge. *)
Definition plainBadge_escaped (P : Platform) (t : JsVal) (m : jsstring)
  : Prop :=
  exists text,
    textContent_of P t = ret text /\ m = badgeElement DefaultBadge text.

(** The badge container of a card: nothing when neither list has a
    positive length, and otherwise both lists are arrays, not both empty,
    and the container holds one element for each entry, the colour list
    first. *)
Definition badges_escaped (P : Platform) (colorBadges badges : JsVal)
  (container : jsstring) : Prop :=
  (length_positive P colorBadges = ret false /\
   length_positive P badges = ret false /\ container = []) \/
  exists cbs bs ms ns,
    colorBadges = JArr cbs /\ badges = JArr bs /\ cbs ++ bs <> [] /\
    Forall2 (colorBadge_escaped P) cbs ms /\
    Forall2 (plainBadge_escaped P) bs ns /\
    container = lit "<div class=~card-badges~>" ++ List.concat ms
                ++ List.concat ns ++ lit "</div>".

(** What the card does with each of its strings.  The markup is, piece by
    piece: the link tag around the escaped address and the icon element
    around the icon name as it is ([card_open]), the escaped title
    ([card_title]), the escaped description ([card_text]), the badge
    container with the escaped text of every badge, and the closing
    tags. *)
Definition card_escaping (P : Platform) (a : Attrs) (html : jsstring) : Prop :=
  exists container,
    html = card_open a ++ card_title a ++ card_text a ++ container
           ++ card_close a /\
    badges_escaped P (parsed (color_badges a)) (parsed (badges a)) container.

(** An entry [{ text, color }] of the colour list; [color] may be
    missing. *)
Definition colorEntry (e : jsstring * option jsstring) : JsVal :=
  JObj ((lit "text", JStr (fst e)) ::
        match snd e with
        | Some c => [(lit "color", JStr c)]
        | None => []
        end).

(** [a] with its [badges] attribute set to [json]. *)
Definition set_badges (a : Attrs) (json : jsstring) : Attrs :=
  {| title := title a; description := description a; badges := Some json;
     color_badges := color_badges a; variant := variant a; icon := icon a;
     href := href a |}.

(** [a] without its [badges] attribute. *)
Definition unset_badges (a : Attrs) : Attrs :=
  {| title := title a; description := description a; badges := None;
     color_badges := color_badges a; variant := variant a; icon := icon a;
     href := href a |}.

(** The characters [hexval] gives a value to. *)
Definition hex_digits : list N :=
  [48; 49; 50; 51; 52; 53; 54; 55; 56; 57;
   65; 66; 67; 68; 69; 70; 97; 98; 99; 100; 101; 102].

(** A valid link entry, as a pair of its address and its text. *)
Definition LinkEntry : Type := (jsstring * jsstring)%type.

Definition entry (e : LinkEntry) : JsVal := link (fst e) (snd e).

(** An item of the desktop list and of the drawer list. *)
Definition desktopItem (e : LinkEntry) : jsstring :=
  lit "<li><a href=~" ++ fst e ++ lit "~ class=~navbar-link~>" ++ snd e
  ++ lit "</a></li>".

Definition mobileItem (e : LinkEntry) : jsstring :=
  lit "<li><a href=~" ++ fst e ++ lit "~ class=~mobile-menu-link~>" ++ snd e
  ++ lit "</a></li>".

(** The site-wide list of the script, as link entries. *)
Definition site_entries : list LinkEntry :=
  [(lit "/index.html", lit "Home"); (lit "/future.html", lit "Demo")].

(** The entries the filter of the footer keeps. *)
Definition footer_keeps_entry (e : LinkEntry) : bool :=
  negb (includes (fst e) (lit "#home")) &&
  negb (str_eqb (fst e) (lit "index.html")).

(** The two values of the flag. *)
Inductive ThemeFlag : Type := light | dark.

Definition flag_name (f : ThemeFlag) : jsstring :=
  match f with
  | light => lit "light"
  | dark => lit "dark"
  end.

Definition flip (f : ThemeFlag) : ThemeFlag :=
  match f with
  | light => dark
  | dark => light
  end.

(** The state in which the document attribute and the persisted value
    are both [f]. *)
Definition theme_state (f : ThemeFlag) (b : ThemeButtons) : Theme :=
  {| data_theme := Some (flag_name f); stored := Some (flag_name f);
     buttons := b |}.

(** A state whose document attribute is [f]; the persisted value [s] is
    anything, absent included, and so are the buttons. *)
Definition attribute_state (f : ThemeFlag) (s : option jsstring)
  (b : ThemeButtons) : Theme :=
  {| data_theme := Some (flag_name f); stored := s; buttons := b |}.

(** The state of a first visit: nothing is persisted, and the setup of
    the navbar has run on the document as it was loaded. *)
Definition first_visit : Theme :=
  MsuNavbar.setupThemeToggle
    {| data_theme := None; stored := None;
       buttons := MsuNavbar.rendered_buttons |}.

(** ** Vocabulary of the further properties *)

(** A left inverse of [escapeHtml]: the four character references are
    read back, every other code unit is kept. *)
Fixpoint unescapeHtml (s : jsstring) : jsstring :=
  match s with
  | [] => []
  | c :: r =>
    if negb (isc c "&") then c :: unescapeHtml r
    else
      match r with
      | c1 :: c2 :: c3 :: r3 =>
        if isc c1 "l" && isc c2 "t" && isc c3 ";" then
          cu "<" :: unescapeHtml r3
        else if isc c1 "g" && isc c2 "t" && isc c3 ";" then
          cu ">" :: unescapeHtml r3
        else
          match r3 with
          | c4 :: r4 =>
            if isc c1 "a" && isc c2 "m" && isc c3 "p" && isc c4 ";" then
              cu "&" :: unescapeHtml r4
            else
              match r4 with
              | c5 :: r5 =>
                if isc c1 "n" && isc c2 "b" && isc c3 "s" && isc c4 "p"
                   && isc c5 ";"
                then 160 :: unescapeHtml r5
                else c :: unescapeHtml r
              | [] => c :: unescapeHtml r
              end
          | [] => c :: unescapeHtml r
          end
      | _ => c :: unescapeHtml r
      end
  end.

(** An attribute that is set to the empty string, read as not set. *)
Definition absent_if_empty (o : option jsstring) : option jsstring :=
  match o with
  | Some [] => None
  | _ => o
  end.

(** [a] with every empty attribute removed. *)
Definition without_empty (a : Attrs) : Attrs :=
  {| title := absent_if_empty (title a);
     description := absent_if_empty (description a);
     badges := absent_if_empty (badges a);
     color_badges := absent_if_empty (color_badges a);
     variant := absent_if_empty (variant a);
     icon := absent_if_empty (icon a);
     href := absent_if_empty (href a) |}.

(** [a] with its [color-badges] attribute set to [json], and without
    it. *)
Definition set_color_badges (a : Attrs) (json : jsstring) : Attrs :=
  {| title := title a; description := description a; badges := badges a;
     color_badges := Some json; variant := variant a; icon := icon a;
     href := href a |}.

Definition unset_color_badges (a : Attrs) : Attrs :=
  {| title := title a; description := description a; badges := badges a;
     color_badges := None; variant := variant a; icon := icon a;
     href := href a |}.

(** [a] with its [href] attribute replaced. *)
Definition set_href (a : Attrs) (h : option jsstring) : Attrs :=
  {| title := title a; description := description a; badges := badges a;
     color_badges := color_badges a; variant := variant a; icon := icon a;
     href := h |}.

(** A string of decimal digits, and a string without any. *)
Definition all_digits (s : jsstring) : bool := forallb is_digit s.

Definition no_digit (s : jsstring) : bool :=
  forallb (fun c => negb (is_digit c)) s.

(** A string that does not start with a digit. *)
Definition no_leading_digit (s : jsstring) : bool :=
  match s with
  | [] => true
  | c :: _ => negb (is_digit c)
  end.

(** A number written in decimal digits, and a separator: a non-empty
    string without a digit. *)
Definition number_text (s : jsstring) : bool :=
  all_digits s && negb (List.length s =? 0)%nat.

Definition separator (s : jsstring) : bool :=
  no_digit s && negb (List.length s =? 0)%nat.

(** The value [rgba(r, g, b, alpha)] as [addAlpha] writes it. *)
Definition rgba (P : Platform) (r g b alpha : jsstring) : jsstring :=
  lit "rgba(" ++ r ++ lit ", " ++ g ++ lit ", " ++ b ++ lit ", "
  ++ Number_toString P alpha ++ lit ")".

(** A page: the theme state and the badges mounted in the document. *)
Record Page : Type := {
  page_theme : Theme;
  page_badges : list Badge
}.

(** A click on a theme toggle: [toggleTheme] runs, and the observer is
    then called with the one record that [setAttribute] queued. *)
Definition click_toggle (P : Platform) (page : Page) : Page :=
  let theme := MsuNavbar.toggleTheme (page_theme page) in
  {| page_theme := theme;
     page_badges :=
       observer P [Some (lit "data-theme")] (data_theme theme)
         (page_badges page) |}.

(** What happens to the drawer: it is opened (the menu button) or closed
    (the close button, the overlay, a link of the drawer). *)
Inductive DrawerEvent : Type := OpenDrawer | CloseDrawer.

Definition drawer_step (d : MsuNavbar.Drawer) (e : DrawerEvent)
  : MsuNavbar.Drawer :=
  match e with
  | OpenDrawer => MsuNavbar.openMobileMenu d
  | CloseDrawer => MsuNavbar.closeMobileMenu d
  end.

(** A card whose link address closes the attribute and opens another. *)
Definition quoted_href_card : Attrs :=
  set_href no_attrs (Some (lit "x" ++ dquote :: lit " onclick=alert(1) x=")).

(** An item of the quick links of the footer. *)
Definition quickItem (e : LinkEntry) : jsstring :=
  lit "<li><a href=~" ++ fst e
  ++ lit "~ style=~color: var(--color-text-secondary); font-size: var(--font-size-sm);~>"
  ++ snd e ++ lit "</a></li>".

(** * Properties *)

(** ** The parser never runs out of fuel *)

Ltac break_match :=
  match goal with
  | H : context [match ?x with _ => _ end] |- _ => destruct x eqn:?
  | |- context [match ?x with _ => _ end] => destruct x eqn:?
  end.

Ltac inv H := inversion H; subst; clear H.

(** Unfolds the operations of [Js]. *)
Ltac js := unfold bind, ret, throw in *.

Lemma skip_ws_length (s : jsstring) :
  (List.length (skip_ws s) <= List.length s)%nat.
Proof.
  induction s as [|c r IH]; simpl; [lia|].
  destruct (is_ws c); simpl; lia.
Qed.

Lemma skip_ws_cons (s r : jsstring) (c : N) :
  skip_ws s = c :: r -> (List.length r < List.length s)%nat.
Proof.
  intros H. pose proof (skip_ws_length s) as L. rewrite H in L. simpl in L. lia.
Qed.

Lemma string_body_length (s : jsstring) :
  forall acc k r,
    string_body s acc = Some (k, r) -> (List.length r < List.length s)%nat.
Proof.
  remember (List.length s) as n eqn:En.
  revert s En; induction n as [n IH] using lt_wf_ind.
  intros s En acc k r H. subst n.
  destruct s as [|c s]; simpl in H; [discriminate|].
  repeat break_match; try discriminate;
    try (inv H; simpl; lia);
    try (eapply IH in H; [| | reflexivity]; simpl in *; lia).
Qed.

Lemma expect_length (p s r : jsstring) :
  expect p s = Some r -> (List.length r <= List.length s)%nat.
Proof.
  revert s; induction p as [|b p IH]; intros s H; simpl in H.
  - inv H. lia.
  - destruct s as [|a s]; [discriminate|].
    destruct (a =? b); [|discriminate]. apply IH in H. simpl. lia.
Qed.

Lemma digits_length (s d r : jsstring) :
  digits s = (d, r) -> (List.length r <= List.length s)%nat.
Proof.
  revert d r; induction s as [|c s IH]; intros d r H; simpl in H.
  - inv H. simpl. lia.
  - destruct (is_digit c).
    + destruct (digits s) as [d' r'] eqn:E. inv H.
      specialize (IH _ _ eq_refl). simpl. lia.
    + inv H. lia.
Qed.

Lemma int_part_length (s i r : jsstring) :
  int_part s = Some (i, r) -> (List.length r < List.length s)%nat.
Proof.
  unfold int_part. intros H. destruct s as [|c s]; [discriminate|].
  repeat break_match; try discriminate; inv H; simpl;
    try match goal with E : digits _ = _ |- _ => apply digits_length in E end;
    lia.
Qed.

Lemma frac_part_length (s f r : jsstring) :
  frac_part s = Some (f, r) -> (List.length r <= List.length s)%nat.
Proof.
  unfold frac_part. intros H. destruct s as [|c s].
  - inv H. lia.
  - repeat break_match; try discriminate; inv H; simpl;
      try match goal with E : digits _ = _ |- _ => apply digits_length in E end;
      lia.
Qed.

Lemma exp_part_length (s e r : jsstring) :
  exp_part s = Some (e, r) -> (List.length r <= List.length s)%nat.
Proof.
  unfold exp_part. intros H. destruct s as [|c s].
  - inv H. lia.
  - repeat break_match; try discriminate; inv H; simpl in *;
      repeat match goal with
             | E : digits _ = _ |- _ => apply digits_length in E
             | E : (_, _) = (_, _) |- _ => inv E
             end; simpl in *; lia.
Qed.

Lemma number_length (s l r : jsstring) :
  number s = Some (l, r) -> (List.length r < List.length s)%nat.
Proof.
  unfold number. intros H.
  repeat break_match; try discriminate; inv H;
    repeat match goal with
           | E : int_part _ = _ |- _ => apply int_part_length in E
           | E : frac_part _ = _ |- _ => apply frac_part_length in E
           | E : exp_part _ = _ |- _ => apply exp_part_length in E
           | E : (_, _) = (_, _) |- _ => inv E
           end; simpl in *; lia.
Qed.

Opaque lit.
Arguments expect : simpl never.
Arguments number : simpl never.
Arguments string_body : simpl never.
Arguments skip_ws : simpl never.

(** What is left after a value, the rest of an array or the rest of an
    object is shorter than what was there. *)
Lemma parser_consumes (fuel : nat) :
  (forall s v r, value fuel s = POk v r ->
                 (List.length r < List.length s)%nat) /\
  (forall s acc v r, elements fuel s acc = POk v r ->
                     (List.length r < List.length s)%nat) /\
  (forall s acc v r, members fuel s acc = POk v r ->
                     (List.length r < List.length s)%nat).
Proof.
  induction fuel as [|f [IHv [IHe IHm]]]; [repeat split; discriminate|].
  repeat split.
  - intros s v r H. simpl in H.
    destruct (skip_ws s) as [|c t] eqn:Es; [discriminate|].
    apply skip_ws_cons in Es.
    repeat break_match; try discriminate;
      repeat match goal with
             | E : POk _ _ = POk _ _ |- _ => inv E
             | E : skip_ws _ = _ :: _ |- _ => apply skip_ws_cons in E
             | E : elements f _ _ = POk _ _ |- _ => apply IHe in E
             | E : members f _ _ = POk _ _ |- _ => apply IHm in E
             | E : string_body _ _ = Some _ |- _ => apply string_body_length in E
             | E : expect _ _ = Some _ |- _ => apply expect_length in E
             | E : number _ = Some _ |- _ => apply number_length in E
             end; subst; simpl in *; lia.
  - intros s acc v r H. simpl in H.
    destruct (value f s) as [v1 r1| |] eqn:Ev; try discriminate.
    apply IHv in Ev.
    destruct (skip_ws r1) as [|c t] eqn:Es; [discriminate|].
    apply skip_ws_cons in Es.
    repeat break_match; try discriminate.
    + apply IHe in H. lia.
    + inv H. lia.
  - intros s acc v r H. simpl in H.
    destruct (skip_ws s) as [|q t] eqn:Es; [discriminate|].
    apply skip_ws_cons in Es.
    destruct (q =? dquote); [|discriminate].
    destruct (string_body t []) as [[key r1]|] eqn:Ek; [|discriminate].
    apply string_body_length in Ek.
    destruct (skip_ws r1) as [|colon r2] eqn:E1; [discriminate|].
    apply skip_ws_cons in E1.
    destruct (isc colon ":"); [|discriminate].
    destruct (value f r2) as [v1 r3| |] eqn:Ev; try discriminate.
    apply IHv in Ev.
    destruct (skip_ws r3) as [|c r4] eqn:E3; [discriminate|].
    apply skip_ws_cons in E3.
    repeat break_match; try discriminate.
    + apply IHm in H. lia.
    + inv H. lia.
Qed.

(** With fuel beyond twice the length of the text, no call fails for lack
    of fuel. *)
Lemma parser_fuel (fuel : nat) :
  (forall s, (2 * List.length s + 1 <= fuel)%nat -> value fuel s <> PFuel) /\
  (forall s acc, (2 * List.length s + 2 <= fuel)%nat ->
                 elements fuel s acc <> PFuel) /\
  (forall s acc, (2 * List.length s + 2 <= fuel)%nat ->
                 members fuel s acc <> PFuel).
Proof.
  induction fuel as [|f [IHv [IHe IHm]]]; [repeat split; intros; lia|].
  destruct (parser_consumes f) as [Cv [Ce Cm]].
  repeat split.
  - intros s L. simpl.
    destruct (skip_ws s) as [|c t] eqn:Es; [discriminate|].
    apply skip_ws_cons in Es.
    repeat break_match; try discriminate;
      repeat match goal with
             | E : skip_ws _ = _ :: _ |- _ => apply skip_ws_cons in E
             end;
      first [apply IHe | apply IHm]; simpl in *; lia.
  - intros s acc L. simpl.
    destruct (value f s) as [v1 r1| |] eqn:Ev; try discriminate.
    + apply Cv in Ev.
      destruct (skip_ws r1) as [|c t] eqn:Es; [discriminate|].
      apply skip_ws_cons in Es.
      repeat break_match; try discriminate.
      apply IHe. lia.
    + exfalso. revert Ev. apply IHv. lia.
  - intros s acc L. simpl.
    destruct (skip_ws s) as [|q t] eqn:Es; [discriminate|].
    apply skip_ws_cons in Es.
    destruct (q =? dquote); [|discriminate].
    destruct (string_body t []) as [[key r1]|] eqn:Ek; [|discriminate].
    apply string_body_length in Ek.
    destruct (skip_ws r1) as [|colon r2] eqn:E1; [discriminate|].
    apply skip_ws_cons in E1.
    destruct (isc colon ":"); [|discriminate].
    destruct (value f r2) as [v1 r3| |] eqn:Ev; try discriminate.
    + apply Cv in Ev.
      destruct (skip_ws r3) as [|c r4] eqn:E3; [discriminate|].
      apply skip_ws_cons in E3.
      repeat break_match; try discriminate.
      apply IHm. lia.
    + exfalso. revert Ev. apply IHv. lia.
Qed.

(** [JSON.parse] is total: the fuel it starts with is never exhausted, so
    [None] is a syntax error of the text. *)
Lemma value_fuel (text : jsstring) : value (fuel_for text) text <> PFuel.
Proof.
  apply (proj1 (parser_fuel (fuel_for text))). unfold fuel_for. lia.
Qed.

Lemma parse_None_is_syntax_error (text : jsstring) :
  JSON.parse text = None ->
  value (fuel_for text) text = PSyntax \/
  exists v rest, value (fuel_for text) text = POk v rest /\ skip_ws rest <> [].
Proof.
  unfold JSON.parse. intros H. pose proof (value_fuel text) as F.
  destruct (value (fuel_for text) text) as [v rest| |]; [|now left|easy].
  right. exists v, rest. split; [reflexivity|].
  destruct (skip_ws rest); [discriminate|easy].
Qed.

(** ** Strings *)

Lemma str_eqb_eq (s t : jsstring) : str_eqb s t = true <-> s = t.
Proof.
  revert t; induction s as [|a s IH]; intros [|b t]; simpl; try easy.
  rewrite andb_true_iff, N.eqb_eq, IH. split.
  - intros [-> ->]. reflexivity.
  - intros E. inv E. easy.
Qed.

Lemma str_eqb_neq (s t : jsstring) : s <> t -> str_eqb s t = false.
Proof.
  intros H. destruct (str_eqb s t) eqn:E; [|reflexivity].
  apply str_eqb_eq in E. contradiction.
Qed.

(** ** Escaping *)

Lemma escape_unit_safe (c : N) :
  ~ In (cu "<") (escape_unit c) /\ ~ In (cu ">") (escape_unit c).
Proof.
  unfold escape_unit, isc.
  destruct (c =? cu "&") eqn:E1; [vm_compute; intuition discriminate|].
  destruct (c =? 160) eqn:E2; [vm_compute; intuition discriminate|].
  destruct (c =? cu "<") eqn:E3; [vm_compute; intuition discriminate|].
  destruct (c =? cu ">") eqn:E4; [vm_compute; intuition discriminate|].
  apply N.eqb_neq in E3, E4. simpl. intuition congruence.
Qed.

(** The output of [escapeHtml] holds neither [<] nor [>]. *)
Lemma escapeHtml_safe (text : jsstring) :
  ~ In (cu "<") (escapeHtml text) /\ ~ In (cu ">") (escapeHtml text).
Proof.
  unfold escapeHtml. induction text as [|c text [IH1 IH2]]; simpl; [easy|].
  destruct (escape_unit_safe c) as [S1 S2].
  rewrite !in_app_iff. tauto.
Qed.

(** Nor does it hold a no-break space. *)
Lemma escapeHtml_no_nbsp (text : jsstring) : ~ In 160 (escapeHtml text).
Proof.
  unfold escapeHtml. induction text as [|c text IH]; simpl; [easy|].
  rewrite in_app_iff. intros [H|H]; [|easy]. revert H.
  unfold escape_unit, isc.
  destruct (c =? cu "&") eqn:E1; [vm_compute; intuition discriminate|].
  destruct (c =? 160) eqn:E2; [vm_compute; intuition discriminate|].
  destruct (c =? cu "<") eqn:E3; [vm_compute; intuition discriminate|].
  destruct (c =? cu ">") eqn:E4; [vm_compute; intuition discriminate|].
  apply N.eqb_neq in E2. simpl. intuition congruence.
Qed.

Lemma escapeHtml_app (s t : jsstring) :
  escapeHtml (s ++ t) = escapeHtml s ++ escapeHtml t.
Proof. unfold escapeHtml. apply flat_map_app. Qed.

Lemma escapeHtml_cons (c : N) (s : jsstring) :
  escapeHtml (c :: s) = escape_unit c ++ escapeHtml s.
Proof. reflexivity. Qed.

Lemma unescapeHtml_escapeHtml (text : jsstring) :
  unescapeHtml (escapeHtml text) = text.
Proof.
  induction text as [|c text IH]; [reflexivity|].
  rewrite escapeHtml_cons. unfold escape_unit.
  destruct (isc c "&") eqn:E1.
  { apply N.eqb_eq in E1. subst c.
    replace (lit "&amp;") with [38; 97; 109; 112; 59]
      by (vm_compute; reflexivity).
    cbn. now rewrite IH. }
  destruct (c =? 160) eqn:E2.
  { apply N.eqb_eq in E2. subst c.
    replace (lit "&nbsp;") with [38; 110; 98; 115; 112; 59]
      by (vm_compute; reflexivity).
    cbn. now rewrite IH. }
  destruct (isc c "<") eqn:E3.
  { apply N.eqb_eq in E3. subst c.
    replace (lit "&lt;") with [38; 108; 116; 59] by (vm_compute; reflexivity).
    cbn. now rewrite IH. }
  destruct (isc c ">") eqn:E4.
  { apply N.eqb_eq in E4. subst c.
    replace (lit "&gt;") with [38; 103; 116; 59] by (vm_compute; reflexivity).
    cbn. now rewrite IH. }
  cbn [app unescapeHtml]. rewrite E1. cbn [negb]. now rewrite IH.
Qed.

(** X22.  Text that holds none of [&], [<], [>] and the no-break space
    U+00A0 is its own escaped form. *)
Lemma escapeHtml_plain (text : jsstring) :
  forallb (fun c => negb (isc c "&" || (c =? 160) || isc c "<" || isc c ">"))
    text = true ->
  escapeHtml text = text.
Proof.
  unfold escapeHtml.
  induction text as [|c text IH]; cbn [flat_map forallb]; [easy|].
  rewrite andb_true_iff, negb_true_iff, !orb_false_iff.
  intros [[[[E1 E2] E3] E4] H]. unfold escape_unit.
  rewrite E1, E2, E3, E4. cbn [app]. f_equal. exact (IH H).
Qed.

(** ** The badge container of a card *)

(** A callback that appends to the markup it is given, run over a list,
    appends what it appends to the empty markup for each element. *)
Lemma forEach_appends {A} (body : jsstring -> A -> Js jsstring)
  (l : list A) (html : jsstring) :
  (forall h x, body h x = (m <- body [] x ;; ret (h ++ m))) ->
  forEach body l html =
  (ms <- mapJs (body []) l ;; ret (html ++ List.concat ms)).
Proof.
  intros Happ. revert html; induction l as [|x l IH]; intros html.
  - cbn. js. now rewrite app_nil_r.
  - cbn [forEach mapJs]. rewrite Happ.
    destruct (body [] x) as [e|m]; [reflexivity|]. cbn [bind ret].
    rewrite IH. destruct (mapJs (body []) l) as [e|ms]; [reflexivity|].
    js. cbn [List.concat]. now rewrite <- app_assoc.
Qed.

Lemma mapJs_total {A B C} (f : B -> Js C) (h : A -> B) (g : A -> C)
  (l : list A) :
  (forall x, f (h x) = ret (g x)) ->
  mapJs f (List.map h l) = ret (List.map g l).
Proof.
  intros H. induction l as [|x l IH]; [reflexivity|].
  cbn [mapJs List.map]. rewrite H, IH. reflexivity.
Qed.

Section CardFacts.

Variable P : Platform.

Lemma colorBadge_appends (html : jsstring) (badge : JsVal) :
  colorBadge P html badge = (m <- colorBadge P [] badge ;; ret (html ++ m)).
Proof.
  unfold colorBadge.
  destruct (getProp badge (lit "text")) as [e|t]; [reflexivity|].
  cbn [bind].
  destruct (getProp badge (lit "color")) as [e|c]; [reflexivity|].
  cbn [bind]. cbv zeta.
  repeat match goal with
         | |- context [if ?b then _ else _] => destruct b
         end;
    repeat match goal with
           | |- context [bind ?m _] =>
             lazymatch m with
             | bind _ _ => fail
             | _ => destruct m as [?|?]; [reflexivity|]; cbn [bind]
             end
           end;
    reflexivity.
Qed.

Lemma plainBadge_appends (html : jsstring) (text : JsVal) :
  plainBadge P html text = (m <- plainBadge P [] text ;; ret (html ++ m)).
Proof.
  unfold plainBadge. destruct (escapeHtml_of P text); reflexivity.
Qed.

(** The container is appended to what is there. *)
Lemma badgeContainer_appends (cb b : JsVal) (html : jsstring) :
  badgeContainer P cb b html =
  (m <- badgeContainer P cb b [] ;; ret (html ++ m)).
Proof.
  assert (forall cb b html,
    (html1 <- forEach_val cb (colorBadge P)
                (html ++ lit "<div class=~card-badges~>") ;;
     html2 <- forEach_val b (plainBadge P) html1 ;;
     ret (html2 ++ lit "</div>")) =
    (m <- (html1 <- forEach_val cb (colorBadge P)
                      ([] ++ lit "<div class=~card-badges~>") ;;
           html2 <- forEach_val b (plainBadge P) html1 ;;
           ret (html2 ++ lit "</div>")) ;;
     ret (html ++ m))) as Hsome.
  { clear. intros cb b html.
    destruct cb as [| | | |cbs|]; try reflexivity. cbn [forEach_val].
    rewrite !(forEach_appends _ _ _ colorBadge_appends).
    destruct (mapJs (colorBadge P []) cbs) as [e|ms]; [reflexivity|].
    cbn [bind ret].
    destruct b as [| | | |bs|]; try reflexivity. cbn [forEach_val].
    rewrite !(forEach_appends _ _ _ plainBadge_appends).
    destruct (mapJs (plainBadge P []) bs) as [e|ns]; [reflexivity|].
    js. cbn [app]. now rewrite <- !app_assoc. }
  unfold badgeContainer.
  destruct (length_positive P cb) as [e|[|]]; [reflexivity| |].
  - apply Hsome.
  - cbn [bind]. destruct (length_positive P b) as [e|[|]]; [reflexivity| |].
    + apply Hsome.
    + js. now rewrite app_nil_r.
Qed.

(** The markup of a plain badge is its escaped text in a default badge. *)
Lemma plainBadge_text (t : JsVal) (m : jsstring) :
  plainBadge P [] t = inr m ->
  exists text,
    textContent_of P t = ret text /\
    m = lit "<msu-badge>" ++ escapeHtml text ++ lit "</msu-badge>".
Proof.
  unfold plainBadge, escapeHtml_of. intros H.
  destruct (textContent_of P t) as [e|text]; [discriminate|].
  cbn [bind ret] in H. inv H. now exists text.
Qed.

(** The markup of a colour badge is its escaped text in a badge of one of
    the three kinds, which carries the colour as it is. *)
Lemma colorBadge_markup (badge : JsVal) (m : jsstring) :
  colorBadge P [] badge = inr m -> colorBadge_escaped P badge m.
Proof.
  unfold colorBadge, colorBadge_escaped, escapeHtml_of. intros H.
  destruct (getProp badge (lit "text")) as [e|t]; [discriminate|].
  destruct (getProp badge (lit "color")) as [e|c]; [discriminate|].
  cbn [bind ret] in H. cbv zeta in H.
  exists t, c.
  repeat match type of H with
         | context [if ?b then _ else _] => destruct b
         end;
    try (destruct (ToString P (or_empty P c)) as [e|value] eqn:Ev;
         [discriminate|]; cbn [bind] in H);
    (destruct (textContent_of P (or_empty P t)) as [e|text];
     [discriminate|]); cbn [bind ret app] in H; inv H; exists text.
  - exists (ByVariant value). repeat split; [exact Ev|].
    unfold badgeElement. now rewrite <- ?app_assoc.
  - exists (ByColor value). repeat split; [exact Ev|].
    unfold badgeElement. now rewrite <- ?app_assoc.
  - exists DefaultBadge. repeat split.
Qed.

Lemma plainBadge_markup (t : JsVal) (m : jsstring) :
  plainBadge P [] t = inr m -> plainBadge_escaped P t m.
Proof.
  intros H. destruct (plainBadge_text _ H) as (text & Et & ->).
  now exists text.
Qed.

Lemma mapJs_Forall2 {A B} (f : A -> Js B) (l : list A) (ys : list B) :
  mapJs f l = inr ys -> Forall2 (fun x y => f x = inr y) l ys.
Proof.
  revert ys; induction l as [|a l IH]; intros ys H; cbn [mapJs] in H.
  - js. inv H. constructor.
  - destruct (f a) as [e|y] eqn:Ea; [discriminate|]. cbn [bind] in H.
    destruct (mapJs f l) as [e|ys'] eqn:El; [discriminate|].
    js. inv H. constructor; [exact Ea|]. now apply IH.
Qed.

(** A container that was written holds an element for each entry of the
    two lists; none is written when neither list has a positive
    length. *)
Lemma badgeContainer_returns (cb b : JsVal) (m : jsstring) :
  badgeContainer P cb b [] = inr m -> badges_escaped P cb b m.
Proof.
  unfold badgeContainer, badges_escaped. intros H.
  assert ((html1 <- forEach_val cb (colorBadge P)
                      ([] ++ lit "<div class=~card-badges~>") ;;
           html2 <- forEach_val b (plainBadge P) html1 ;;
           ret (html2 ++ lit "</div>")) = inr m ->
          exists cbs bs ms ns,
            cb = JArr cbs /\ b = JArr bs /\
            Forall2 (colorBadge_escaped P) cbs ms /\
            Forall2 (plainBadge_escaped P) bs ns /\
            m = lit "<div class=~card-badges~>" ++ List.concat ms
                ++ List.concat ns ++ lit "</div>") as Hsome.
  { clear. intros H.
    destruct cb as [| | | |cbs|]; try discriminate. cbn [forEach_val] in H.
    rewrite (forEach_appends _ _ _ colorBadge_appends) in H.
    destruct (mapJs (colorBadge P []) cbs) as [e|ms] eqn:Em; [discriminate|].
    cbn [bind ret] in H.
    destruct b as [| | | |bs|]; try discriminate. cbn [forEach_val] in H.
    rewrite (forEach_appends _ _ _ plainBadge_appends) in H.
    destruct (mapJs (plainBadge P []) bs) as [e|ns] eqn:En; [discriminate|].
    js. cbn [app] in H. inv H.
    exists cbs, bs, ms, ns. repeat split.
    - eapply Forall2_impl; [|apply mapJs_Forall2, Em].
      intros x y. apply colorBadge_markup.
    - eapply Forall2_impl; [|apply mapJs_Forall2, En].
      intros x y. apply plainBadge_markup.
    - now rewrite <- ?app_assoc. }
  destruct (length_positive P cb) as [e|[|]] eqn:Lc; [discriminate| |].
  - right. destruct (Hsome H) as (cbs & bs & ms & ns & -> & -> & R).
    exists cbs, bs, ms, ns. repeat split; try apply R.
    destruct cbs; [discriminate|easy].
  - cbn [bind] in H.
    destruct (length_positive P b) as [e|[|]] eqn:Lb; [discriminate| |].
    + right. destruct (Hsome H) as (cbs & bs & ms & ns & -> & -> & R).
      exists cbs, bs, ms, ns. repeat split; try apply R.
      destruct bs; [discriminate|]. now destruct cbs.
    + left. js. inv H. easy.
Qed.

End CardFacts.
(** ** The markup of a card *)

(** [render] assigns the opening markup, the title, the description, the
    badge container and the closing markup, in this order. *)
Lemma render_shape (P : Platform) (a : Attrs) :
  snd (render P a) =
  (m <- badgeContainer P (parsed (color_badges a)) (parsed (badges a)) [] ;;
   ret (card_open a ++ card_title a ++ card_text a ++ m ++ card_close a)).
Proof.
  unfold render, parse_or_warn, parsed.
  destruct (JSON.parse (attr_or (badges a) (lit "[]"))) as [b|];
    destruct (JSON.parse (attr_or (color_badges a) (lit "[]"))) as [cb|];
    cbn [snd]; rewrite badgeContainer_appends;
    (match goal with
     | |- context [badgeContainer P ?x ?y []] =>
       destruct (badgeContainer P x y []) as [e|m]
     end; [reflexivity|]);
    unfold card_open, card_title, card_text, card_close;
    cbn [bind ret]; f_equal;
    destruct (attr_truthy (href a)); destruct (attr_truthy (icon a));
    destruct (attr_or (description a) []);
    repeat rewrite <- app_assoc; repeat rewrite app_nil_r; reflexivity.
Qed.

(** C2, as amended.  Whenever [render] returns, the markup it assigns is
    exactly: the link tag around the escaped link address, the opening of
    the card, the icon element around the icon name as it is, the escaped
    title, the escaped description, the badge container with the escaped
    text of each colour badge and of each plain badge, and the closing
    tags.  Escaped means passed through [escapeHtml], whose output holds
    no [<], no [>] and no no-break space and reads back as the text it
    was given: the title [<script>] comes out as [&lt;script&gt;], text
    and never an element. *)
Theorem card_strings_escaped (P : Platform) (a : Attrs) (html : jsstring) :
  snd (render P a) = inr html ->
  card_escaping P a html /\
  (forall text, ~ In (cu "<") (escapeHtml text) /\
                ~ In (cu ">") (escapeHtml text) /\
                ~ In 160 (escapeHtml text) /\
                unescapeHtml (escapeHtml text) = text) /\
  escapeHtml (lit "<script>") = lit "&lt;script&gt;".
Proof.
  intros H. split; [|split; [|vm_compute; reflexivity]].
  - rewrite render_shape in H.
    destruct (badgeContainer P (parsed (color_badges a))
                (parsed (badges a)) []) as [e|m] eqn:Em; [discriminate|].
    js. inv H. exists m. split; [reflexivity|].
    now apply badgeContainer_returns.
  - intros text. destruct (escapeHtml_safe text) as [S1 S2].
    repeat split; [exact S1|exact S2|apply escapeHtml_no_nbsp|].
    apply unescapeHtml_escapeHtml.
Qed.

(** C2, counterexample: the link address is not inserted as it is; its
    [<] is escaped like the title's would be. *)
Lemma href_is_escaped :
  snd (render lexical linked_card) =
  ret (lit "<a href=~a&lt;b~ class=~card-link~ style=~text-decoration: none; color: inherit; display: block;~><div class=~card~><h4 class=~card-title~>Lab</h4></div></a>")
  /\ includes
       (lit "<a href=~a&lt;b~ class=~card-link~ style=~text-decoration: none; color: inherit; display: block;~><div class=~card~><h4 class=~card-title~>Lab</h4></div></a>")
       (lit "a<b") = false.
Proof. split; vm_compute; reflexivity. Qed.

(** C2, witness: the card that uses every attribute. *)
Lemma card_strings_escaped_witness :
  card_escaping lexical sample_card sample_markup /\
  (forall text, ~ In (cu "<") (escapeHtml text) /\
                ~ In (cu ">") (escapeHtml text) /\
                ~ In 160 (escapeHtml text) /\
                unescapeHtml (escapeHtml text) = text) /\
  escapeHtml (lit "<script>") = lit "&lt;script&gt;".
Proof.
  apply (@card_strings_escaped lexical sample_card sample_markup).
  vm_compute. reflexivity.
Defined.

(** ** C4: the order and the kind of the badges *)

Lemma or_empty_string (P : Platform) (s : jsstring) :
  or_empty P (Some (JStr s)) = JStr s.
Proof. destruct s; reflexivity. Qed.

Lemma colorBadge_entry (P : Platform) (e : jsstring * option jsstring) :
  colorBadge P [] (colorEntry e) =
  ret (badgeElement (classify (snd e)) (fst e)).
Proof.
  destruct e as [t c]. unfold colorBadge, colorEntry, getProp. cbn [fst snd].
  assert (lookup (lit "text")
            ((lit "text", JStr t) ::
             match c with Some c => [(lit "color", JStr c)] | None => [] end)
          = Some (JStr t)) as -> by (destruct c; vm_compute; reflexivity).
  assert (lookup (lit "color")
            ((lit "text", JStr t) ::
             match c with Some c => [(lit "color", JStr c)] | None => [] end)
          = match c with Some c => Some (JStr c) | None => None end) as ->
    by (destruct c; vm_compute; reflexivity).
  cbn [bind ret]. cbv zeta. rewrite or_empty_string.
  unfold escapeHtml_of. cbn [textContent_of ToString bind ret].
  destruct c as [[|c s]|]; cbn [or_empty truthy classify badgeElement];
    try (vm_compute; reflexivity).
  destruct (str_eqb (c :: s) (lit "purple") || str_eqb (c :: s) (lit "orange"));
    unfold badgeElement; cbn [ToString bind ret];
    rewrite ?app_nil_l, <- ?app_assoc; reflexivity.
Qed.

Lemma plainBadge_string (P : Platform) (t : jsstring) :
  plainBadge P [] (JStr t) = ret (badgeElement DefaultBadge t).
Proof. reflexivity. Qed.

(** C4.  For a colour list of [{ text, color }] entries and a plain list
    of strings, the container holds the colour badges, then the plain
    badges, each list in its order; a colour entry becomes the element of
    its kind, a plain entry a default badge, and the two lists being empty
    no container is written.  A colour is of exactly one kind: a variant
    when it is [purple] or [orange], a colour when it is any other
    non-empty string, the default when it is empty or missing.  So
    [badges='["A","B"]'] alone renders two default badges, A then B. *)
Theorem badges_in_order_by_kind (P : Platform)
  (colored : list (jsstring * option jsstring)) (plain : list jsstring)
  (html : jsstring) :
  badgeContainer P (JArr (List.map colorEntry colored))
    (JArr (List.map JStr plain)) html =
  ret (html ++
       match colored, plain with
       | [], [] => []
       | _, _ =>
         lit "<div class=~card-badges~>" ++
         List.concat
           (List.map (fun e => badgeElement (classify (snd e)) (fst e))
              colored) ++
         List.concat (List.map (badgeElement DefaultBadge) plain) ++
         lit "</div>"
       end)
  /\ (classify (Some (lit "purple")) = ByVariant (lit "purple") /\
      classify (Some (lit "orange")) = ByVariant (lit "orange") /\
      (forall c, c <> [] -> c <> lit "purple" -> c <> lit "orange" ->
                 classify (Some c) = ByColor c) /\
      classify (Some []) = DefaultBadge /\
      classify None = DefaultBadge)
  /\ render P {| title := None; description := None;
                 badges := Some (lit "[~A~,~B~]"); color_badges := None;
                 variant := None; icon := None; href := None |} =
     ([], ret (lit "<div class=~card~><h4 class=~card-title~>Untitled</h4><div class=~card-badges~><msu-badge>A</msu-badge><msu-badge>B</msu-badge></div></div>")).
Proof.
  split; [|split].
  - rewrite badgeContainer_appends. unfold badgeContainer.
    cbn [length_positive bind ret].
    assert (forEach_val (JArr (List.map colorEntry colored)) (colorBadge P)
              (lit "<div class=~card-badges~>") =
            ret (lit "<div class=~card-badges~>" ++
                 List.concat
                   (List.map (fun e => badgeElement (classify (snd e)) (fst e))
                      colored))) as Ec.
    { cbn [forEach_val].
      rewrite (forEach_appends _ _ _ (colorBadge_appends P)).
      rewrite (mapJs_total _ _
                 (fun e => badgeElement (classify (snd e)) (fst e))
                 _ (colorBadge_entry P)).
      reflexivity. }
    assert (forall h, forEach_val (JArr (List.map JStr plain)) (plainBadge P) h
                      = ret (h ++ List.concat
                                    (List.map (badgeElement DefaultBadge)
                                       plain))) as Eb.
    { intros h. cbn [forEach_val].
      rewrite (forEach_appends _ _ _ (plainBadge_appends P)).
      rewrite (mapJs_total _ _ (badgeElement DefaultBadge) _
                 (plainBadge_string P)).
      reflexivity. }
    destruct colored as [|e cbs]; [destruct plain as [|t bs]|].
    + reflexivity.
    + cbn [List.map bind] in *. rewrite !app_nil_l, Ec. cbn [bind ret].
      rewrite Eb. js. now rewrite <- !app_assoc.
    + cbn [List.map bind] in *. rewrite !app_nil_l, Ec. cbn [bind ret].
      rewrite Eb. js. now rewrite <- !app_assoc.
  - repeat split; try (vm_compute; reflexivity).
    intros [|c s] H0 H1 H2; [contradiction|]. cbn [classify].
    now rewrite (str_eqb_neq H1), (str_eqb_neq H2).
  - vm_compute. reflexivity.
Qed.

(** ** C10: well-formed JSON of the wrong shape *)

(** Induction on a value, with the hypothesis for every element of an
    array. *)
Lemma JsVal_ind' (Q : JsVal -> Prop) :
  Q JNull -> (forall b, Q (JBool b)) -> (forall l, Q (JNum l)) ->
  (forall s, Q (JStr s)) -> (forall es, Forall Q es -> Q (JArr es)) ->
  (forall props, Q (JObj props)) ->
  forall v, Q v.
Proof.
  intros Hnull Hbool Hnum Hstr Harr Hobj.
  fix self 1. intros [| b | l | s | es | props].
  - exact Hnull.
  - apply Hbool.
  - apply Hnum.
  - apply Hstr.
  - apply Harr.
    induction es as [|x es IH]; constructor; [apply self|exact IH].
  - apply Hobj.
Qed.

(** No conversion throws anything but a [TypeError]. *)
Lemma ToString_error (P : Platform) (v : JsVal) (e : JsError) :
  ToString P v = inl e -> e = TypeError.
Proof.
  revert e.
  induction v as [| | | |es IH|props] using JsVal_ind'; intros e H;
    cbn [ToString] in H; try discriminate.
  - destruct b; discriminate.
  - induction IH as [|x l Hx _ IHl]; [discriminate|].
    destruct (match x with JNull => ret [] | _ => ToString P x end)
      as [e1|s1] eqn:E1; cbn [bind] in H.
    + inv H. destruct x; try discriminate E1; now apply Hx.
    + destruct l as [|y l]; [discriminate|].
      match type of H with
      | context [bind (bind ?j _) _] => destruct j as [e2|s2] eqn:E2
      end; cbn [bind ret] in H; [|discriminate].
      inv H. now apply IHl.
  - destruct (lookup (lit "toString") props); now inv H.
Qed.

Lemma textContent_of_error (P : Platform) (v : JsVal) (e : JsError) :
  textContent_of P v = inl e -> e = TypeError.
Proof.
  destruct v; try discriminate; apply ToString_error.
Qed.

Lemma length_positive_error (P : Platform) (v : JsVal) (e : JsError) :
  length_positive P v = inl e -> e = TypeError.
Proof.
  destruct v as [| | | | |props]; cbn [length_positive]; intros H;
    try discriminate; [now inv H|].
  destruct (lookup (lit "length") props) as [l|]; [|discriminate].
  destruct l; cbn [gt_zero] in H; try discriminate;
    match type of H with
    | context [ToString P ?v] =>
      destruct (ToString P v) eqn:E; [|discriminate]
    end; inv H; eapply ToString_error, E.
Qed.

(** A call of the colour callback throws nothing but a [TypeError]. *)
Lemma colorBadge_error (P : Platform) (html : jsstring) (b : JsVal)
  (e : JsError) :
  colorBadge P html b = inl e -> e = TypeError.
Proof.
  unfold colorBadge, escapeHtml_of. intros H.
  destruct (getProp b (lit "text")) as [e1|t] eqn:Et.
  { destruct b; inv Et. now inv H. }
  destruct (getProp b (lit "color")) as [e1|c] eqn:Ec.
  { destruct b; inv Ec. now inv H. }
  cbn [bind ret] in H. cbv zeta in H.
  repeat match type of H with
         | context [if ?b then _ else _] => destruct b
         end;
    try (destruct (ToString P (or_empty P c)) as [e1|value] eqn:Ev;
         [inv H; eapply ToString_error, Ev|]; cbn [bind] in H);
    (destruct (textContent_of P (or_empty P t)) as [e1|text] eqn:Etx;
     [inv H; eapply textContent_of_error, Etx|discriminate]).
Qed.

Lemma forEach_colorBadge_error (P : Platform) (l : list JsVal)
  (html : jsstring) (e : JsError) :
  forEach (colorBadge P) l html = inl e -> e = TypeError.
Proof.
  revert html; induction l as [|b l IH]; intros html H; [discriminate|].
  cbn [forEach] in H.
  destruct (colorBadge P html b) as [e'|h] eqn:Eb; cbn [bind] in H.
  - inv H. eapply colorBadge_error, Eb.
  - eauto.
Qed.

(** With a string for its plain list a card throws, whatever the colour
    list is. *)
Lemma badgeContainer_string (P : Platform) (cb : JsVal) (c : N)
  (s html : jsstring) :
  badgeContainer P cb (JStr (c :: s)) html = throw TypeError.
Proof.
  unfold badgeContainer.
  assert ((html1 <- forEach_val cb (colorBadge P)
                      (html ++ lit "<div class=~card-badges~>") ;;
           html2 <- forEach_val (JStr (c :: s)) (plainBadge P) html1 ;;
           ret (html2 ++ lit "</div>")) = throw TypeError) as Hsome.
  { destruct cb as [| | | |cbs|]; try reflexivity. cbn [forEach_val].
    destruct (forEach (colorBadge P) cbs _) as [e|h] eqn:E; [|reflexivity].
    apply forEach_colorBadge_error in E. now subst. }
  destruct (length_positive P cb) as [e|[|]] eqn:L.
  - apply length_positive_error in L. now subst.
  - exact Hsome.
  - exact Hsome.
Qed.

(** C10.  The JSON text ["A"] (a string, in quotes) is well formed, is
    not an array, and as the [badges] attribute of any card makes [render]
    throw a [TypeError]. *)
Theorem badges_json_string_throws :
  exists json v,
    JSON.parse json = Some v /\
    (forall es, v <> JArr es) /\
    forall P a, snd (render P (set_badges a json)) = throw TypeError.
Proof.
  exists (lit "~A~"), (JStr (lit "A")). split; [vm_compute; reflexivity|].
  split; [discriminate|]. intros P a. rewrite render_shape.
  unfold parsed, set_badges. cbn [badges color_badges].
  replace (JSON.parse (attr_or (Some (lit "~A~")) (lit "[]")))
    with (Some (JStr (lit "A"))) by (vm_compute; reflexivity).
  replace (lit "A") with [65] by (vm_compute; reflexivity).
  rewrite badgeContainer_string. reflexivity.
Qed.

(** ** C1: malformed JSON *)

(** The card recovers from a malformed [badges]: it renders what it
    renders without the attribute, after one warning. *)
Lemma card_recovers_from_malformed_badges (P : Platform) (a : Attrs)
  (json : jsstring) :
  json <> [] -> JSON.parse json = None ->
  render P (set_badges a json) =
  ((lit "Failed to parse badges JSON:", json)
     :: fst (render P (unset_badges a)),
   snd (render P (unset_badges a))).
Proof.
  intros Hne Hp. unfold render, set_badges, unset_badges, parse_or_warn.
  cbn [title description badges color_badges variant icon href].
  destruct json as [|c json]; [contradiction|]. cbn [attr_or].
  rewrite Hp.
  replace (JSON.parse (lit "[]")) with (Some (JArr []))
    by (vm_compute; reflexivity).
  destruct (JSON.parse (attr_or (color_badges a) (lit "[]"))); reflexivity.
Qed.

(** The navbar and the footer recover from nothing: the [SyntaxError] of
    a malformed [page-links] leaves [connectedCallback]. *)
Lemma page_links_syntax_error_escapes (P : Platform) (siteLinks : list JsVal)
  (json : jsstring) (st : Theme) (year : N) :
  json <> [] -> JSON.parse json = None ->
  MsuNavbar.connectedCallback P siteLinks (Some json) st = throw SyntaxError /\
  MsuFooter.connectedCallback P siteLinks year (Some json)
  = throw SyntaxError.
Proof.
  intros Hne Hp.
  unfold MsuNavbar.connectedCallback, MsuNavbar.allLinks,
    MsuFooter.connectedCallback, MsuFooter.allLinks, parsePageLinks.
  destruct json as [|c json]; [contradiction|]. rewrite Hp. split; reflexivity.
Qed.

(** C1, at the failing input: with the malformed [page-links="{not json"]
    the navbar and the footer throw the [SyntaxError] of [JSON.parse],
    while a card with the same text for [badges] logs one warning and
    renders without badges. *)
Theorem malformed_page_links_throw (P : Platform) (st : Theme) (year : N) :
  MsuNavbar.connectedCallback P defaultSiteLinks (Some (lit "{not json")) st
  = throw SyntaxError /\
  MsuFooter.connectedCallback P defaultSiteLinks year (Some (lit "{not json"))
  = throw SyntaxError /\
  render P (set_badges no_attrs (lit "{not json")) =
  ([(lit "Failed to parse badges JSON:", lit "{not json")],
   ret (lit "<div class=~card~><h4 class=~card-title~>Untitled</h4></div>")).
Proof.
  repeat split; vm_compute; reflexivity.
Qed.

(** ** C5: the style of a badge *)

(** C5, counterexample: a [color] attribute that is present and empty
    does not override the variant. *)
Lemma empty_color_keeps_variant :
  MsuBadge.getBadgeStyles lexical (Some (lit "purple")) (Some []) false =
  MsuBadge.badge_base_styles ++ MsuBadge.purple_light_styles
  /\ MsuBadge.getBadgeStyles lexical None (Some []) false =
     MsuBadge.badge_base_styles ++ MsuBadge.default_light_styles
  /\ MsuBadge.purple_light_styles <> MsuBadge.default_light_styles.
Proof.
  repeat split; try (vm_compute; reflexivity).
  vm_compute. discriminate.
Qed.

(** C5, as amended.  A [color] attribute that is present and not empty
    overrides any variant: the styles are those of the custom colour,
    whatever [variant] is.  Without such a colour and with a variant that
    is neither [purple] nor [orange], the badge is the default green one:
    background [#dcfce7] with text [#1a9659] in the light theme,
    background [#1a2622] with text [#4ade80] in the dark theme. *)
Theorem badge_style_precedence (P : Platform) (variant : option jsstring)
  (c : N) (color : jsstring) (isDarkTheme : bool) :
  MsuBadge.getBadgeStyles P variant (Some (c :: color)) isDarkTheme =
  MsuBadge.badge_base_styles ++ lit "
                .badge {
                    "
  ++ MsuBadge.getCustomColorStyles P (c :: color) isDarkTheme ++ lit "
                }
            "
  /\ (forall customColor,
        customColor = None \/ customColor = Some [] ->
        variant <> Some (lit "purple") -> variant <> Some (lit "orange") ->
        MsuBadge.getBadgeStyles P variant customColor isDarkTheme =
        MsuBadge.badge_base_styles ++
        (if isDarkTheme then lit "
                    .badge {
                        background-color: #1a2622;
                        color: #4ade80;
                        border: none;
                    }
                "
         else lit "
                    .badge {
                        background-color: #dcfce7;
                        color: #1a9659;
                        border: none;
                    }
                ")).
Proof.
  split; [reflexivity|].
  intros customColor Hc Hp Ho. unfold MsuBadge.getBadgeStyles.
  assert (attr_is variant (lit "purple") = false) as ->.
  { destruct variant as [v|]; [|reflexivity]. apply str_eqb_neq. congruence. }
  assert (attr_is variant (lit "orange") = false) as ->.
  { destruct variant as [v|]; [|reflexivity]. apply str_eqb_neq. congruence. }
  destruct Hc as [->| ->]; reflexivity.
Qed.

(** ** C6: [addAlpha] *)

(** C6, at the failing input: the three-digit colour [#abc] starts with
    [#], so it is cut into [ab], [c] and the empty string, and the blue
    channel is [NaN]; the colour is neither blended nor returned as it
    is. *)
Theorem addAlpha_short_hex (P : Platform) (alpha : jsstring) :
  MsuBadge.addAlpha P (lit "#abc") alpha =
  lit "rgba(171, 12, NaN, " ++ Number_toString P alpha ++ lit ")".
Proof.
  vm_compute. reflexivity.
Qed.

(** The functional notation of the specification's example. *)
Lemma addAlpha_rgb_example (P : Platform) (alpha : jsstring) :
  MsuBadge.addAlpha P (lit "rgb(255,0,0)") alpha =
  lit "rgba(255, 0, 0, " ++ Number_toString P alpha ++ lit ")".
Proof.
  vm_compute. reflexivity.
Qed.

(** A colour that starts with neither [#] nor [rgb] is returned as it
    is. *)
Lemma addAlpha_other (P : Platform) (color alpha : jsstring) :
  startsWith color (lit "#") = false ->
  startsWith color (lit "rgb") = false ->
  MsuBadge.addAlpha P color alpha = color.
Proof.
  intros H1 H2. unfold MsuBadge.addAlpha. now rewrite H1, H2.
Qed.

Lemma hexval_In (c a : N) : hexval c = Some a -> In c hex_digits.
Proof.
  unfold hexval, is_digit. intros H.
  assert ((48 <= c <= 57) \/ (65 <= c <= 70) \/ (97 <= c <= 102)) as R.
  { repeat break_match; try discriminate;
      rewrite ?andb_true_iff, ?N.leb_le in *; lia. }
  assert (c = 48 \/ c = 49 \/ c = 50 \/ c = 51 \/ c = 52 \/ c = 53 \/
          c = 54 \/ c = 55 \/ c = 56 \/ c = 57 \/ c = 65 \/ c = 66 \/
          c = 67 \/ c = 68 \/ c = 69 \/ c = 70 \/ c = 97 \/ c = 98 \/
          c = 99 \/ c = 100 \/ c = 101 \/ c = 102) as E by lia.
  unfold hex_digits. cbn [In]. intuition.
Qed.

(** [parseInt] reads two hexadecimal digits as the byte they write. *)
Lemma parseInt16_pair (h1 h2 a b : N) :
  hexval h1 = Some a -> hexval h2 = Some b ->
  MsuBadge.parseInt16 [h1; h2] = Some (Z.of_N (a * 16 + b)).
Proof.
  intros H1 H2.
  assert (forallb (fun x =>
            forallb (fun y =>
              match hexval x, hexval y, MsuBadge.parseInt16 [x; y] with
              | Some a, Some b, Some z => Z.eqb z (Z.of_N (a * 16 + b))
              | _, _, _ => false
              end) hex_digits) hex_digits = true) as T
    by (vm_compute; reflexivity).
  rewrite forallb_forall in T.
  specialize (T h1 (hexval_In _ H1)). rewrite forallb_forall in T.
  specialize (T h2 (hexval_In _ H2)). rewrite H1, H2 in T.
  destruct (MsuBadge.parseInt16 [h1; h2]) as [z|]; [|discriminate].
  apply Z.eqb_eq in T. now subst.
Qed.

Lemma int_toString_of_N (n : N) :
  MsuBadge.int_toString (Some (Z.of_N n)) = decimal n.
Proof. destruct n; reflexivity. Qed.

(** A six-digit colour [#rrggbb] becomes [rgba(r, g, b, alpha)], the
    channels in decimal. *)
Lemma addAlpha_hex (P : Platform) (r1 r2 g1 g2 b1 b2 : N)
  (r r' g g' b b' : N) (alpha : jsstring) :
  hexval r1 = Some r -> hexval r2 = Some r' ->
  hexval g1 = Some g -> hexval g2 = Some g' ->
  hexval b1 = Some b -> hexval b2 = Some b' ->
  MsuBadge.addAlpha P (cu "#" :: [r1; r2; g1; g2; b1; b2]) alpha =
  lit "rgba(" ++ decimal (r * 16 + r') ++ lit ", "
  ++ decimal (g * 16 + g') ++ lit ", " ++ decimal (b * 16 + b') ++ lit ", "
  ++ Number_toString P alpha ++ lit ")".
Proof.
  intros Hr Hr' Hg Hg' Hb Hb'. unfold MsuBadge.addAlpha.
  replace (startsWith (cu "#" :: [r1; r2; g1; g2; b1; b2]) (lit "#"))
    with true by (vm_compute; reflexivity).
  replace (remove_first (cu "#") (cu "#" :: [r1; r2; g1; g2; b1; b2]))
    with [r1; r2; g1; g2; b1; b2] by reflexivity.
  cbv [substring]. cbn [Nat.sub skipn firstn].
  rewrite (parseInt16_pair _ _ Hr Hr'), (parseInt16_pair _ _ Hg Hg'),
    (parseInt16_pair _ _ Hb Hb'), !int_toString_of_N.
  reflexivity.
Qed.

(** ** Link lists *)

Lemma linkItem_entry (P : Platform) (before between after : jsstring)
  (e : LinkEntry) :
  linkItem P before between after (entry e) =
  ret (before ++ fst e ++ between ++ snd e ++ after).
Proof.
  destruct e as [h t]. unfold linkItem, entry, link, getProp. cbn [fst snd].
  replace (lookup (lit "href") [(lit "href", JStr h); (lit "text", JStr t)])
    with (Some (JStr h)) by (vm_compute; reflexivity).
  replace (lookup (lit "text") [(lit "href", JStr h); (lit "text", JStr t)])
    with (Some (JStr t)) by (vm_compute; reflexivity).
  reflexivity.
Qed.

(** C7.  When the [page-links] attribute holds the valid list [L2] (or is
    not set, [L2] being empty), the navbar renders the list [L1 ++ L2],
    [L1] being the site-wide list: the desktop list and the drawer list
    hold one item per entry of [L1 ++ L2], in this order, with the same
    address and the same text in both. *)
Theorem navbar_lists_are_the_merge (P : Platform) (L1 L2 : list LinkEntry)
  (pageLinksAttr : option jsstring) (st : Theme) :
  parsePageLinks pageLinksAttr = ret (JArr (List.map entry L2)) ->
  MsuNavbar.allLinks (List.map entry L1) pageLinksAttr
  = ret (List.map entry (L1 ++ L2)) /\
  MsuNavbar.desktopNavLinks P (List.map entry (L1 ++ L2))
  = ret (List.concat (List.map desktopItem (L1 ++ L2))) /\
  MsuNavbar.mobileNavLinks P (List.map entry (L1 ++ L2))
  = ret (List.concat (List.map mobileItem (L1 ++ L2))) /\
  MsuNavbar.connectedCallback P (List.map entry L1) pageLinksAttr st
  = ret (MsuNavbar.navbar_html_1 ++ siteConfig.brandName ++ MsuNavbar.navbar_html_2
         ++ List.concat (List.map desktopItem (L1 ++ L2))
         ++ MsuNavbar.navbar_html_3 ++ siteConfig.brandName ++ MsuNavbar.navbar_html_4
         ++ List.concat (List.map mobileItem (L1 ++ L2))
         ++ MsuNavbar.navbar_html_5,
         MsuNavbar.setupThemeToggle st).
Proof.
  intros Hp.
  assert (MsuNavbar.allLinks (List.map entry L1) pageLinksAttr
          = ret (List.map entry (L1 ++ L2))) as Ea.
  { unfold MsuNavbar.allLinks. rewrite Hp. cbn [bind ret spread].
    now rewrite map_app. }
  assert (MsuNavbar.desktopNavLinks P (List.map entry (L1 ++ L2))
          = ret (List.concat (List.map desktopItem (L1 ++ L2)))) as Ed.
  { unfold MsuNavbar.desktopNavLinks.
    rewrite (mapJs_total _ _ desktopItem _ (linkItem_entry P _ _ _)).
    reflexivity. }
  assert (MsuNavbar.mobileNavLinks P (List.map entry (L1 ++ L2))
          = ret (List.concat (List.map mobileItem (L1 ++ L2)))) as Em.
  { unfold MsuNavbar.mobileNavLinks.
    rewrite (mapJs_total _ _ mobileItem _ (linkItem_entry P _ _ _)).
    reflexivity. }
  repeat split; try assumption.
  unfold MsuNavbar.connectedCallback, MsuNavbar.render.
  rewrite Ea. cbn [bind ret]. rewrite Ed, Em. reflexivity.
Qed.

Lemma defaultSiteLinks_entries :
  defaultSiteLinks = List.map entry site_entries.
Proof. reflexivity. Qed.

(** C7, witness: the site-wide list of the script and a page with one
    link of its own. *)
Lemma navbar_lists_are_the_merge_witness :
  MsuNavbar.allLinks (List.map entry site_entries)
    (Some (lit "[{~href~:~#about~,~text~:~About~}]"))
  = ret (List.map entry (site_entries ++ [(lit "#about", lit "About")])) /\
  MsuNavbar.desktopNavLinks lexical
    (List.map entry (site_entries ++ [(lit "#about", lit "About")]))
  = ret (List.concat
           (List.map desktopItem
              (site_entries ++ [(lit "#about", lit "About")]))) /\
  MsuNavbar.mobileNavLinks lexical
    (List.map entry (site_entries ++ [(lit "#about", lit "About")]))
  = ret (List.concat
           (List.map mobileItem
              (site_entries ++ [(lit "#about", lit "About")]))) /\
  MsuNavbar.connectedCallback lexical (List.map entry site_entries)
    (Some (lit "[{~href~:~#about~,~text~:~About~}]"))
    {| data_theme := None; stored := None; buttons := MsuNavbar.rendered_buttons |}
  = ret (MsuNavbar.navbar_html_1 ++ siteConfig.brandName ++ MsuNavbar.navbar_html_2
         ++ List.concat
              (List.map desktopItem
                 (site_entries ++ [(lit "#about", lit "About")]))
         ++ MsuNavbar.navbar_html_3 ++ siteConfig.brandName ++ MsuNavbar.navbar_html_4
         ++ List.concat
              (List.map mobileItem
                 (site_entries ++ [(lit "#about", lit "About")]))
         ++ MsuNavbar.navbar_html_5,
         MsuNavbar.setupThemeToggle
           {| data_theme := None; stored := None;
              buttons := MsuNavbar.rendered_buttons |}).
Proof.
  apply (@navbar_lists_are_the_merge lexical site_entries
           [(lit "#about", lit "About")]).
  vm_compute. reflexivity.
Defined.

(** ** C3: the quick links of the footer *)

Lemma footer_keeps_entry_eq (e : LinkEntry) :
  MsuFooter.keeps (entry e) = ret (footer_keeps_entry e).
Proof.
  destruct e as [h t]. unfold MsuFooter.keeps, entry, link, getProp.
  cbn [fst snd].
  replace (lookup (lit "href") [(lit "href", JStr h); (lit "text", JStr t)])
    with (Some (JStr h)) by (vm_compute; reflexivity).
  reflexivity.
Qed.

Lemma filterJs_total {A B} (f : B -> Js bool) (h : A -> B) (g : A -> bool)
  (l : list A) :
  (forall x, f (h x) = ret (g x)) ->
  filterJs f (List.map h l) = ret (List.map h (List.filter g l)).
Proof.
  intros H. induction l as [|x l IH]; [reflexivity|].
  cbn [filterJs List.map List.filter]. rewrite H, IH. cbn [bind ret].
  destruct (g x); reflexivity.
Qed.

(** What the footer does for valid lists: it keeps the entries of
    [L1 ++ L2] whose address neither holds [#home] nor is exactly
    [index.html]. *)
Lemma footer_links_filtered (L1 L2 : list LinkEntry)
  (pageLinksAttr : option jsstring) :
  parsePageLinks pageLinksAttr = ret (JArr (List.map entry L2)) ->
  MsuFooter.allLinks (List.map entry L1) pageLinksAttr =
  ret (List.map entry (List.filter footer_keeps_entry (L1 ++ L2))).
Proof.
  intros Hp. unfold MsuFooter.allLinks. rewrite Hp. cbn [bind ret spread].
  rewrite <- map_app. apply filterJs_total, footer_keeps_entry_eq.
Qed.

(** C3, at the failing input: a footer without [page-links].  The filter
    compares the address with [index.html], the site-wide Home entry has
    [/index.html], so the entry passes and Home is the first quick
    link. *)
Theorem footer_keeps_site_home (P : Platform) :
  MsuFooter.allLinks defaultSiteLinks None = ret defaultSiteLinks /\
  In (link (lit "/index.html") (lit "Home")) defaultSiteLinks /\
  MsuFooter.quickLinks P defaultSiteLinks =
  ret (lit "<li><a href=~/index.html~ style=~color: var(--color-text-secondary); font-size: var(--font-size-sm);~>Home</a></li><li><a href=~/future.html~ style=~color: var(--color-text-secondary); font-size: var(--font-size-sm);~>Demo</a></li>").
Proof.
  split; [vm_compute; reflexivity|]. split; [left; reflexivity|].
  vm_compute. reflexivity.
Qed.

(** ** C8 and C9: the theme flag *)

(** C8, counterexample: on a first visit the document attribute is
    [light] and nothing is persisted; two toggles give back the attribute,
    but not the persisted value, which is then [light]. *)
Lemma first_visit_toggle_twice :
  data_theme first_visit = Some (lit "light") /\
  stored first_visit = None /\
  data_theme (MsuNavbar.toggleTheme (MsuNavbar.toggleTheme first_visit))
  = Some (lit "light") /\
  stored (MsuNavbar.toggleTheme (MsuNavbar.toggleTheme first_visit))
  = Some (lit "light").
Proof. repeat split; vm_compute; reflexivity. Qed.

(** C8, as amended.  From a state whose document attribute is [light] or
    [dark], whatever is persisted and whatever the buttons show, a toggle
    flips the attribute and persists the new value; two toggles give back
    the attribute and leave it persisted and shown by the buttons.  The
    persisted value is the one there was exactly when that one was equal
    to the attribute, and the whole state is the one there was exactly
    when, moreover, the buttons showed it. *)
Theorem toggle_twice_restores_the_attribute (f : ThemeFlag)
  (s : option jsstring) (b : ThemeButtons) :
  MsuNavbar.toggleTheme (attribute_state f s b)
  = theme_state (flip f)
      (MsuNavbar.updateThemeButtons (Some (flag_name (flip f)))) /\
  MsuNavbar.toggleTheme (MsuNavbar.toggleTheme (attribute_state f s b))
  = theme_state f (MsuNavbar.updateThemeButtons (Some (flag_name f))) /\
  (stored (MsuNavbar.toggleTheme
             (MsuNavbar.toggleTheme (attribute_state f s b)))
   = stored (attribute_state f s b)
   <-> s = Some (flag_name f)) /\
  (MsuNavbar.toggleTheme (MsuNavbar.toggleTheme (attribute_state f s b))
   = attribute_state f s b
   <-> s = Some (flag_name f) /\
       b = MsuNavbar.updateThemeButtons (Some (flag_name f))).
Proof.
  assert (MsuNavbar.toggleTheme (attribute_state f s b)
          = theme_state (flip f)
              (MsuNavbar.updateThemeButtons (Some (flag_name (flip f)))))
    as E1 by (destruct f; vm_compute; reflexivity).
  assert (MsuNavbar.toggleTheme
            (MsuNavbar.toggleTheme (attribute_state f s b))
          = theme_state f (MsuNavbar.updateThemeButtons (Some (flag_name f))))
    as E2 by (rewrite E1; destruct f; vm_compute; reflexivity).
  split; [exact E1|]. split; [exact E2|]. rewrite E2.
  unfold theme_state, attribute_state. cbn [stored]. split.
  - split; intros H; now rewrite H.
  - split.
    + intros H. injection H as Hs Hb. now split.
    + intros [-> ->]. reflexivity.
Qed.

(** C9, counterexample: a persisted value that is neither [light] nor
    [dark] becomes the document attribute as it is. *)
Lemma invalid_stored_theme_is_kept :
  data_theme
    (MsuNavbar.setupThemeToggle
       {| data_theme := None; stored := Some (lit "blue");
          buttons := MsuNavbar.rendered_buttons |})
  = Some (lit "blue").
Proof. vm_compute. reflexivity. Qed.

(** C9, as amended.  The read at setup gives the document attribute the
    persisted value when there is one and it is not empty, in particular
    when it is [light] or [dark], and [light] when none is persisted or
    the persisted one is empty; the persisted value itself is left as it
    is. *)
Theorem setup_reads_stored_theme (dt : option jsstring) (b : ThemeButtons) :
  (forall f : ThemeFlag,
     data_theme
       (MsuNavbar.setupThemeToggle
          {| data_theme := dt; stored := Some (flag_name f); buttons := b |})
     = Some (flag_name f)) /\
  (forall c s,
     data_theme
       (MsuNavbar.setupThemeToggle
          {| data_theme := dt; stored := Some (c :: s); buttons := b |})
     = Some (c :: s)) /\
  data_theme
    (MsuNavbar.setupThemeToggle {| data_theme := dt; stored := None; buttons := b |})
  = Some (flag_name light) /\
  data_theme
    (MsuNavbar.setupThemeToggle {| data_theme := dt; stored := Some []; buttons := b |})
  = Some (flag_name light) /\
  (forall st, stored (MsuNavbar.setupThemeToggle st) = stored st).
Proof.
  repeat split.
  intros []; vm_compute; reflexivity.
Qed.

(** * Further properties of card.js *)

(** ** [escapeHtml] *)

(** X1.  [escapeHtml] loses nothing: two texts have the same escaped form
    only when they are the same text. *)
Theorem escapeHtml_injective (s t : jsstring) :
  escapeHtml s = escapeHtml t <-> s = t.
Proof.
  split; [|now intros ->].
  intros H. rewrite <- (unescapeHtml_escapeHtml s), H.
  apply unescapeHtml_escapeHtml.
Qed.

(** ** [MsuCard.render] *)

(** The warnings of [render] are those of its two parses, [badges]
    first. *)
Lemma render_warnings (P : Platform) (a : Attrs) :
  fst (render P a) =
  snd (parse_or_warn (lit "Failed to parse badges JSON:")
         (attr_or (badges a) (lit "[]")))
  ++ snd (parse_or_warn (lit "Failed to parse color-badges JSON:")
            (attr_or (color_badges a) (lit "[]"))).
Proof.
  unfold render.
  destruct (parse_or_warn (lit "Failed to parse badges JSON:")
              (attr_or (badges a) (lit "[]"))) as [b w1].
  destruct (parse_or_warn (lit "Failed to parse color-badges JSON:")
              (attr_or (color_badges a) (lit "[]"))) as [cb w2].
  reflexivity.
Qed.

Lemma render_eq (P : Platform) (a : Attrs) :
  render P a = (fst (render P a), snd (render P a)).
Proof. now destruct (render P a). Qed.

(** X2.  [escapeHtml] leaves a double quote as it is, so a link address
    that holds one is written with the quote bare inside the quoted
    [href] attribute of the card's markup. *)
Theorem href_quote_is_not_escaped (P : Platform) (a : Attrs)
  (h1 h2 html : jsstring) :
  href a = Some (h1 ++ dquote :: h2) ->
  snd (render P a) = inr html ->
  exists rest,
    html = lit "<a href=~" ++ escapeHtml h1 ++ dquote :: escapeHtml h2
           ++ lit "~ class=~card-link~ style=~text-decoration: none; color: inherit; display: block;~>"
           ++ rest.
Proof.
  intros Hh H. rewrite render_shape in H.
  destruct (badgeContainer P (parsed (color_badges a)) (parsed (badges a)) [])
    as [e|m]; [discriminate|].
  cbn [bind ret] in H. inv H. unfold card_open. rewrite Hh.
  assert (attr_truthy (Some (h1 ++ dquote :: h2)) = true) as ->
    by (destruct h1; reflexivity).
  assert (attr_or (Some (h1 ++ dquote :: h2)) [] = h1 ++ dquote :: h2) as ->
    by (destruct h1; reflexivity).
  rewrite escapeHtml_app, escapeHtml_cons.
  replace (escape_unit dquote) with [dquote] by (vm_compute; reflexivity).
  eexists. rewrite <- !app_assoc. cbn [app]. reflexivity.
Qed.

(** X2, witness. *)
Lemma href_quote_is_not_escaped_witness :
  exists rest,
    lit "<a href=~x~ onclick=alert(1) x=~ class=~card-link~ style=~text-decoration: none; color: inherit; display: block;~><div class=~card~><h4 class=~card-title~>Untitled</h4></div></a>"
    = lit "<a href=~" ++ escapeHtml (lit "x")
      ++ dquote :: escapeHtml (lit " onclick=alert(1) x=")
      ++ lit "~ class=~card-link~ style=~text-decoration: none; color: inherit; display: block;~>"
      ++ rest.
Proof.
  apply (@href_quote_is_not_escaped lexical quoted_href_card).
  - reflexivity.
  - vm_compute. reflexivity.
Defined.

(** The card recovers from a malformed [color-badges] as it does from a
    malformed [badges]; its warning comes last. *)
Lemma card_recovers_from_malformed_color_badges (P : Platform) (a : Attrs)
  (json : jsstring) :
  json <> [] -> JSON.parse json = None ->
  render P (set_color_badges a json) =
  (fst (render P (unset_color_badges a))
     ++ [(lit "Failed to parse color-badges JSON:", json)],
   snd (render P (unset_color_badges a))).
Proof.
  intros Hne Hp.
  unfold render, set_color_badges, unset_color_badges, parse_or_warn.
  cbn [title description badges color_badges variant icon href].
  destruct json as [|c json]; [contradiction|]. cbn [attr_or].
  rewrite Hp.
  replace (JSON.parse (lit "[]")) with (Some (JArr []))
    by (vm_compute; reflexivity).
  destruct (JSON.parse (attr_or (badges a) (lit "[]")));
    cbn [fst snd]; now rewrite app_nil_r.
Qed.

(** X3.  A badge list that is not JSON costs the card nothing but the
    list: with a malformed [badges], or a malformed [color-badges], the
    card renders exactly what it renders without that attribute, and logs
    one warning more, which carries the text of the attribute. *)
Theorem card_recovers_from_malformed_lists (P : Platform) (a : Attrs)
  (json : jsstring) :
  json <> [] -> JSON.parse json = None ->
  render P (set_badges a json) =
  ((lit "Failed to parse badges JSON:", json)
     :: fst (render P (unset_badges a)),
   snd (render P (unset_badges a)))
  /\ render P (set_color_badges a json) =
     (fst (render P (unset_color_badges a))
        ++ [(lit "Failed to parse color-badges JSON:", json)],
      snd (render P (unset_color_badges a))).
Proof.
  intros Hne Hp. split.
  - now apply card_recovers_from_malformed_badges.
  - now apply card_recovers_from_malformed_color_badges.
Qed.

(** X3, witness: the malformed list of the specification, on the card
    that uses every attribute. *)
Lemma card_recovers_from_malformed_lists_witness :
  render lexical (set_badges sample_card (lit "{not json")) =
  ((lit "Failed to parse badges JSON:", lit "{not json")
     :: fst (render lexical (unset_badges sample_card)),
   snd (render lexical (unset_badges sample_card)))
  /\ render lexical (set_color_badges sample_card (lit "{not json")) =
     (fst (render lexical (unset_color_badges sample_card))
        ++ [(lit "Failed to parse color-badges JSON:", lit "{not json")],
      snd (render lexical (unset_color_badges sample_card))).
Proof.
  apply (@card_recovers_from_malformed_lists lexical sample_card
           (lit "{not json")).
  - vm_compute. discriminate.
  - vm_compute. reflexivity.
Defined.

Lemma plainBadge_error (P : Platform) (html : jsstring) (t : JsVal)
  (e : JsError) :
  plainBadge P html t = inl e -> e = TypeError.
Proof.
  unfold plainBadge, escapeHtml_of. intros H.
  destruct (textContent_of P t) as [e1|text] eqn:E; [|discriminate].
  inv H. eapply textContent_of_error, E.
Qed.

Lemma forEach_error {A} (body : jsstring -> A -> Js jsstring)
  (l : list A) (html : jsstring) (e : JsError) :
  (forall h x e', body h x = inl e' -> e' = TypeError) ->
  forEach body l html = inl e -> e = TypeError.
Proof.
  intros Hb. revert html; induction l as [|x l IH]; intros html H;
    [discriminate|].
  cbn [forEach] in H. destruct (body html x) as [e'|h] eqn:Eb; cbn [bind] in H.
  - inv H. eapply Hb, Eb.
  - eauto.
Qed.

Lemma forEach_val_error (v : JsVal)
  (body : jsstring -> JsVal -> Js jsstring) (html : jsstring) (e : JsError) :
  (forall h x e', body h x = inl e' -> e' = TypeError) ->
  forEach_val v body html = inl e -> e = TypeError.
Proof.
  intros Hb H. destruct v; try (now inv H).
  eapply forEach_error; eauto.
Qed.

Lemma badgeContainer_error (P : Platform) (cb b : JsVal) (html : jsstring)
  (e : JsError) :
  badgeContainer P cb b html = inl e -> e = TypeError.
Proof.
  unfold badgeContainer. intros H.
  assert (forall r : Js jsstring,
            r = (html1 <- forEach_val cb (colorBadge P)
                            (html ++ lit "<div class=~card-badges~>") ;;
                 html2 <- forEach_val b (plainBadge P) html1 ;;
                 ret (html2 ++ lit "</div>")) ->
            r = inl e -> e = TypeError) as Hsome.
  { intros r -> Hr.
    destruct (forEach_val cb (colorBadge P) _) as [e1|h1] eqn:E1;
      cbn [bind] in Hr.
    - inv Hr. eapply forEach_val_error, E1. apply colorBadge_error.
    - destruct (forEach_val b (plainBadge P) h1) as [e2|h2] eqn:E2;
        cbn [bind ret] in Hr; [|discriminate].
      inv Hr. eapply forEach_val_error, E2. apply plainBadge_error. }
  destruct (length_positive P cb) as [e1|[|]] eqn:Lc; cbn [bind ret] in H.
  - inv H. eapply length_positive_error, Lc.
  - eapply Hsome; [reflexivity|exact H].
  - destruct (length_positive P b) as [e1|[|]] eqn:Lb; cbn [bind ret] in H.
    + inv H. eapply length_positive_error, Lb.
    + eapply Hsome; [reflexivity|exact H].
    + discriminate.
Qed.

(** X4.  Whatever its attributes hold, [render] either assigns markup or
    throws a [TypeError]: the [SyntaxError] of a parse never leaves it. *)
Theorem card_render_throws_only_TypeError (P : Platform) (a : Attrs) :
  snd (render P a) = throw TypeError \/
  exists html, snd (render P a) = ret html.
Proof.
  rewrite render_shape.
  destruct (badgeContainer P (parsed (color_badges a)) (parsed (badges a)) [])
    as [e|m] eqn:E.
  - left. apply badgeContainer_error in E. now subst.
  - right. eexists. reflexivity.
Qed.

(** X5.  A card whose two badge lists are empty, be it that the attribute
    is not set, is [[]] or does not parse, writes no badge container at
    all: its markup is the opening, the title, the description and the
    closing. *)
Theorem card_without_badges (P : Platform) (a : Attrs) :
  parsed (badges a) = JArr [] -> parsed (color_badges a) = JArr [] ->
  snd (render P a) =
  ret (card_open a ++ card_title a ++ card_text a ++ card_close a).
Proof.
  intros Hb Hc. rewrite render_shape, Hb, Hc. reflexivity.
Qed.

(** X5, witness: one list is not set, the other does not parse. *)
Lemma card_without_badges_witness :
  snd (render lexical (set_badges linked_card (lit "{not json"))) =
  ret (card_open (set_badges linked_card (lit "{not json"))
       ++ card_title (set_badges linked_card (lit "{not json"))
       ++ card_text (set_badges linked_card (lit "{not json"))
       ++ card_close (set_badges linked_card (lit "{not json"))).
Proof.
  apply (@card_without_badges lexical
           (set_badges linked_card (lit "{not json")));
    vm_compute; reflexivity.
Defined.

Lemma attr_or_absent_if_empty (o : option jsstring) (d : jsstring) :
  attr_or (absent_if_empty o) d = attr_or o d.
Proof. destruct o as [[|c s]|]; reflexivity. Qed.

Lemma attr_truthy_absent_if_empty (o : option jsstring) :
  attr_truthy (absent_if_empty o) = attr_truthy o.
Proof. destruct o as [[|c s]|]; reflexivity. Qed.

Lemma attr_is_absent_if_empty (o : option jsstring) (c : N) (s : jsstring) :
  attr_is (absent_if_empty o) (c :: s) = attr_is o (c :: s).
Proof. destruct o as [[|c' s']|]; reflexivity. Qed.

(** X6.  An attribute set to the empty string is to the card an attribute
    that is not set: for each of its seven attributes, and for all of
    them at once, the warnings and the markup are the same. *)
Theorem card_empty_attribute_is_absent (P : Platform) (a : Attrs) :
  render P (without_empty a) = render P a.
Proof.
  unfold render, without_empty.
  cbn [title description badges color_badges variant icon href].
  replace (lit "green") with [103; 114; 101; 101; 110]
    by (vm_compute; reflexivity).
  rewrite !attr_or_absent_if_empty, !attr_truthy_absent_if_empty,
    attr_is_absent_if_empty.
  reflexivity.
Qed.

(** X7.  A link address wraps the card and changes nothing else: the
    card with a non-empty [href] logs what the card without it logs, and
    its markup is the markup of that card between the opening tag of the
    link, which carries the escaped address, and its closing tag. *)
Theorem card_href_wraps (P : Platform) (a : Attrs) (c : N) (h : jsstring) :
  render P (set_href a (Some (c :: h))) =
  (fst (render P (set_href a None)),
   inner <- snd (render P (set_href a None)) ;;
   ret (lit "<a href=~" ++ escapeHtml (c :: h)
        ++ lit "~ class=~card-link~ style=~text-decoration: none; color: inherit; display: block;~>"
        ++ inner ++ lit "</a>")).
Proof.
  rewrite (render_eq P (set_href a (Some (c :: h)))). f_equal.
  - rewrite !render_warnings. reflexivity.
  - rewrite !render_shape. unfold set_href.
    cbn [title description badges color_badges variant icon href].
    destruct (badgeContainer P (parsed (color_badges a)) (parsed (badges a)) [])
      as [e|m]; [reflexivity|].
    cbn [bind ret]. f_equal.
    unfold card_open, card_title, card_text, card_close.
    cbn [title description badges color_badges variant icon href
         attr_truthy attr_or].
    rewrite <- !app_assoc. cbn [app]. reflexivity.
Qed.

(** ** [MsuBadge.addAlpha] *)

Lemma hexval_bound (c a : N) : hexval c = Some a -> a < 16.
Proof.
  unfold hexval, is_digit. intros H.
  repeat break_match; try discriminate; inv H;
    rewrite ?andb_true_iff, ?N.leb_le in *; lia.
Qed.

(** The three channels that [addAlpha] reads off six hexadecimal digits,
    whatever follows them. *)
Lemma hex_channels (r1 r2 g1 g2 b1 b2 : N) (r r' g g' b b' : N)
  (rest : jsstring) :
  hexval r1 = Some r -> hexval r2 = Some r' ->
  hexval g1 = Some g -> hexval g2 = Some g' ->
  hexval b1 = Some b -> hexval b2 = Some b' ->
  MsuBadge.int_toString
    (MsuBadge.parseInt16 (substring ([r1; r2; g1; g2; b1; b2] ++ rest) 0 2))
  = decimal (r * 16 + r')
  /\ MsuBadge.int_toString
       (MsuBadge.parseInt16
          (substring ([r1; r2; g1; g2; b1; b2] ++ rest) 2 4))
     = decimal (g * 16 + g')
  /\ MsuBadge.int_toString
       (MsuBadge.parseInt16
          (substring ([r1; r2; g1; g2; b1; b2] ++ rest) 4 6))
     = decimal (b * 16 + b').
Proof.
  intros Hr Hr' Hg Hg' Hb Hb'.
  cbv [substring]. cbn [Nat.sub skipn firstn app].
  rewrite (parseInt16_pair _ _ Hr Hr'), (parseInt16_pair _ _ Hg Hg'),
    (parseInt16_pair _ _ Hb Hb'), !int_toString_of_N.
  repeat split.
Qed.

(** X8.  A colour that starts with [#] and six hexadecimal digits, of
    either case, becomes [rgba(r, g, b, alpha)] with the three bytes in
    decimal; whatever follows the six digits, such as the alpha of an
    eight-digit colour, is dropped. *)
Theorem addAlpha_hex_digits (P : Platform) (r1 r2 g1 g2 b1 b2 : N)
  (r r' g g' b b' : N) (rest alpha : jsstring) :
  hexval r1 = Some r -> hexval r2 = Some r' ->
  hexval g1 = Some g -> hexval g2 = Some g' ->
  hexval b1 = Some b -> hexval b2 = Some b' ->
  MsuBadge.addAlpha P (cu "#" :: [r1; r2; g1; g2; b1; b2] ++ rest) alpha =
  rgba P (decimal (r * 16 + r')) (decimal (g * 16 + g'))
    (decimal (b * 16 + b')) alpha.
Proof.
  intros Hr Hr' Hg Hg' Hb Hb'. unfold MsuBadge.addAlpha, rgba.
  replace (startsWith (cu "#" :: [r1; r2; g1; g2; b1; b2] ++ rest) (lit "#"))
    with true by (vm_compute; reflexivity).
  replace (remove_first (cu "#") (cu "#" :: [r1; r2; g1; g2; b1; b2] ++ rest))
    with ([r1; r2; g1; g2; b1; b2] ++ rest) by reflexivity.
  cbv zeta.
  destruct (@hex_channels r1 r2 g1 g2 b1 b2 r r' g g' b b' rest
              Hr Hr' Hg Hg' Hb Hb') as (-> & -> & ->).
  reflexivity.
Qed.

(** X8, witness: [#3B82f6cc]. *)
Lemma addAlpha_hex_digits_witness :
  MsuBadge.addAlpha lexical
    (cu "#" :: [cu "3"; cu "B"; cu "8"; cu "2"; cu "f"; cu "6"] ++ lit "cc")
    (lit "0.1") =
  rgba lexical (decimal (3 * 16 + 11)) (decimal (8 * 16 + 2))
    (decimal (15 * 16 + 6)) (lit "0.1").
Proof.
  apply (@addAlpha_hex_digits lexical (cu "3") (cu "B") (cu "8") (cu "2")
           (cu "f") (cu "6")); reflexivity.
Defined.

Lemma digit_runs_digits (d rest cur : jsstring) :
  all_digits d = true ->
  MsuBadge.digit_runs (d ++ rest) cur = MsuBadge.digit_runs rest (rev d ++ cur).
Proof.
  revert cur; induction d as [|c d IH]; intros cur H; [reflexivity|].
  cbn [all_digits forallb] in H. apply andb_true_iff in H as [Hc Hd].
  cbn [app MsuBadge.digit_runs rev]. rewrite Hc, (IH _ Hd).
  now rewrite <- app_assoc.
Qed.

Lemma digit_runs_gap (s rest : jsstring) :
  no_digit s = true ->
  MsuBadge.digit_runs (s ++ rest) [] = MsuBadge.digit_runs rest [].
Proof.
  induction s as [|c s IH]; intros H; [reflexivity|].
  cbn [no_digit forallb] in H. apply andb_true_iff in H as [Hc Hs].
  apply negb_true_iff in Hc.
  cbn [app MsuBadge.digit_runs]. rewrite Hc. now apply IH.
Qed.

Lemma digit_runs_end (d s rest : jsstring) (c : N) :
  all_digits (c :: d) = true -> no_leading_digit (s ++ rest) = true ->
  s <> [] \/ rest = [] ->
  MsuBadge.digit_runs ((c :: d) ++ s ++ rest) [] =
  (c :: d) :: MsuBadge.digit_runs (s ++ rest) [].
Proof.
  intros Hd Hs Hne. rewrite (digit_runs_digits _ _ _ Hd), app_nil_r.
  destruct (s ++ rest) as [|x t] eqn:E.
  - cbn [MsuBadge.digit_runs]. destruct (rev (c :: d)) eqn:Er.
    + apply (f_equal (@List.length N)) in Er. rewrite length_rev in Er.
      discriminate.
    + now rewrite <- Er, rev_involutive.
  - cbn [no_leading_digit] in Hs. apply negb_true_iff in Hs.
    cbn [MsuBadge.digit_runs]. rewrite Hs.
    destruct (rev (c :: d)) eqn:Er.
    + apply (f_equal (@List.length N)) in Er. rewrite length_rev in Er.
      discriminate.
    + now rewrite <- Er, rev_involutive.
Qed.

(** The first three runs of digits of a text built as the functional
    notation is: three numbers, something without a digit before each of
    them, and a tail that starts with no digit. *)
Lemma digit_runs_three (pre r s1 g s2 b tail : jsstring) :
  no_digit pre = true ->
  all_digits r = true -> r <> [] ->
  no_digit s1 = true -> s1 <> [] ->
  all_digits g = true -> g <> [] ->
  no_digit s2 = true -> s2 <> [] ->
  all_digits b = true -> b <> [] ->
  no_leading_digit tail = true ->
  exists more,
    MsuBadge.digit_runs (pre ++ r ++ s1 ++ g ++ s2 ++ b ++ tail) [] =
    r :: g :: b :: more.
Proof.
  intros Hpre Hr Hr0 Hs1 Hs10 Hg Hg0 Hs2 Hs20 Hb Hb0 Ht.
  destruct r as [|cr r]; [contradiction|].
  destruct g as [|cg g]; [contradiction|].
  destruct b as [|cb b]; [contradiction|].
  destruct s1 as [|x1 s1]; [contradiction|].
  destruct s2 as [|x2 s2]; [contradiction|].
  assert (forall x s t, no_digit (x :: s) = true ->
                        no_leading_digit ((x :: s) ++ t) = true) as Hlead.
  { intros x s t H. cbn [no_digit forallb] in H.
    apply andb_true_iff in H as [H _]. exact H. }
  rewrite (digit_runs_gap _ _ Hpre).
  rewrite (@digit_runs_end r (x1 :: s1) _ cr Hr (Hlead _ _ _ Hs1));
    [|left; discriminate].
  rewrite (digit_runs_gap _ _ Hs1).
  rewrite (@digit_runs_end g (x2 :: s2) _ cg Hg (Hlead _ _ _ Hs2));
    [|left; discriminate].
  rewrite (digit_runs_gap _ _ Hs2).
  destruct tail as [|t0 tail].
  - change (MsuBadge.digit_runs ((cb :: b) ++ []) [])
      with (MsuBadge.digit_runs ((cb :: b) ++ [] ++ []) []).
    rewrite (@digit_runs_end b [] [] cb Hb eq_refl); [|right; reflexivity].
    eexists. reflexivity.
  - change (MsuBadge.digit_runs ((cb :: b) ++ t0 :: tail) [])
      with (MsuBadge.digit_runs ((cb :: b) ++ [t0] ++ tail) []).
    rewrite (@digit_runs_end b [t0] tail cb Hb Ht); [|left; discriminate].
    eexists. reflexivity.
Qed.

Lemma number_text_spec (s : jsstring) :
  number_text s = true -> all_digits s = true /\ s <> [].
Proof.
  unfold number_text. rewrite andb_true_iff. intros [H1 H2].
  split; [exact H1|]. now destruct s.
Qed.

Lemma separator_spec (s : jsstring) :
  separator s = true -> no_digit s = true /\ s <> [].
Proof.
  unfold separator. rewrite andb_true_iff. intros [H1 H2].
  split; [exact H1|]. now destruct s.
Qed.

Lemma startsWith_nil (s : jsstring) : startsWith s [] = true.
Proof. now destruct s. Qed.

(** A colour in functional notation starts with [rgb], not with [#], and
    its first three runs of digits are its three numbers. *)
Lemma functional_digit_runs (pre r s1 g s2 b tail : jsstring) :
  no_digit pre = true ->
  number_text r = true -> separator s1 = true ->
  number_text g = true -> separator s2 = true ->
  number_text b = true -> no_leading_digit tail = true ->
  startsWith (lit "rgb" ++ pre ++ r ++ s1 ++ g ++ s2 ++ b ++ tail) (lit "#")
  = false
  /\ startsWith (lit "rgb" ++ pre ++ r ++ s1 ++ g ++ s2 ++ b ++ tail)
       (lit "rgb") = true
  /\ exists more,
       MsuBadge.digit_runs
         (lit "rgb" ++ pre ++ r ++ s1 ++ g ++ s2 ++ b ++ tail) []
       = r :: g :: b :: more.
Proof.
  intros Hpre Hr Hs1 Hg Hs2 Hb Ht.
  apply number_text_spec in Hr as [Hr Hr0], Hg as [Hg Hg0], Hb as [Hb Hb0].
  apply separator_spec in Hs1 as [Hs1 Hs10], Hs2 as [Hs2 Hs20].
  replace (lit "rgb") with [114; 103; 98] by (vm_compute; reflexivity).
  replace (lit "#") with [35] by (vm_compute; reflexivity).
  cbn [app startsWith N.eqb Pos.eqb andb].
  rewrite startsWith_nil. repeat split.
  change (114 :: 103 :: 98 :: pre ++ r ++ s1 ++ g ++ s2 ++ b ++ tail)
    with (([114; 103; 98] ++ pre) ++ r ++ s1 ++ g ++ s2 ++ b ++ tail).
  assert (no_digit ([114; 103; 98] ++ pre) = true) as Hpre'
    by (cbn; exact Hpre).
  exact (@digit_runs_three ([114; 103; 98] ++ pre) r s1 g s2 b tail
           Hpre' Hr Hr0 Hs1 Hs10 Hg Hg0 Hs2 Hs20 Hb Hb0 Ht).
Qed.

(** X9.  A colour in functional notation, that is [rgb] followed by three
    numbers in decimal digits with separators that hold no digit before
    and between them, becomes [rgba(r, g, b, alpha)] with the three
    numbers as they were written; what follows the third number, such as
    the alpha of an [rgba] colour, is dropped. *)
Theorem addAlpha_functional (P : Platform)
  (pre r s1 g s2 b tail alpha : jsstring) :
  no_digit pre = true ->
  number_text r = true -> separator s1 = true ->
  number_text g = true -> separator s2 = true ->
  number_text b = true -> no_leading_digit tail = true ->
  MsuBadge.addAlpha P (lit "rgb" ++ pre ++ r ++ s1 ++ g ++ s2 ++ b ++ tail)
    alpha
  = rgba P r g b alpha.
Proof.
  intros Hpre Hr Hs1 Hg Hs2 Hb Ht.
  destruct (@functional_digit_runs pre r s1 g s2 b tail
              Hpre Hr Hs1 Hg Hs2 Hb Ht) as (H1 & H2 & more & H3).
  unfold MsuBadge.addAlpha, rgba. now rewrite H1, H2, H3.
Qed.

(** X9, witness: [rgba(255, 0, 0, 0.5)]. *)
Lemma addAlpha_functional_witness :
  MsuBadge.addAlpha lexical
    (lit "rgb" ++ lit "a(" ++ lit "255" ++ lit ", " ++ lit "0" ++ lit ", "
     ++ lit "0" ++ lit ", 0.5)")
    (lit "0.1")
  = rgba lexical (lit "255") (lit "0") (lit "0") (lit "0.1").
Proof.
  apply (@addAlpha_functional lexical (lit "a(") (lit "255") (lit ", ")
           (lit "0") (lit ", ") (lit "0") (lit ", 0.5)"));
    vm_compute; reflexivity.
Defined.

(** What [addAlpha] writes is a colour in functional notation: blended
    again, it keeps its channels and takes the new alpha. *)
Lemma addAlpha_rgba (P : Platform) (r g b a1 a2 : jsstring) :
  number_text r = true -> number_text g = true -> number_text b = true ->
  MsuBadge.addAlpha P (rgba P r g b a1) a2 = rgba P r g b a2.
Proof.
  intros Hr Hg Hb. unfold rgba at 1.
  replace (lit "rgba(") with (lit "rgb" ++ lit "a(")
    by (vm_compute; reflexivity).
  rewrite <- !app_assoc.
  destruct (@functional_digit_runs (lit "a(") r (lit ", ") g (lit ", ") b
              (lit ", " ++ Number_toString P a1 ++ lit ")"))
    as (H1 & H2 & more & H3);
    try assumption; try (vm_compute; reflexivity).
  unfold MsuBadge.addAlpha, rgba. now rewrite H1, H2, H3.
Qed.

Lemma decimal_byte (n : N) : n < 256 -> number_text (decimal n) = true.
Proof.
  intros H.
  assert (forallb (fun k => number_text (decimal (N.of_nat k))) (seq 0 256)
          = true) as T by (vm_compute; reflexivity).
  rewrite forallb_forall in T. specialize (T (N.to_nat n)).
  rewrite N2Nat.id in T. apply T, in_seq. lia.
Qed.

(** X10.  Blending composes: a six-digit colour blended with one alpha
    and then with another is the colour blended with the second alpha
    alone. *)
Theorem addAlpha_twice (P : Platform) (r1 r2 g1 g2 b1 b2 : N)
  (r r' g g' b b' : N) (rest alpha1 alpha2 : jsstring) :
  hexval r1 = Some r -> hexval r2 = Some r' ->
  hexval g1 = Some g -> hexval g2 = Some g' ->
  hexval b1 = Some b -> hexval b2 = Some b' ->
  MsuBadge.addAlpha P
    (MsuBadge.addAlpha P (cu "#" :: [r1; r2; g1; g2; b1; b2] ++ rest) alpha1)
    alpha2
  = MsuBadge.addAlpha P (cu "#" :: [r1; r2; g1; g2; b1; b2] ++ rest) alpha2.
Proof.
  intros Hr Hr' Hg Hg' Hb Hb'.
  assert (forall alpha,
            MsuBadge.addAlpha P
              (cu "#" :: [r1; r2; g1; g2; b1; b2] ++ rest) alpha
            = rgba P (decimal (r * 16 + r')) (decimal (g * 16 + g'))
                (decimal (b * 16 + b')) alpha) as E.
  { intros alpha. unfold MsuBadge.addAlpha, rgba.
    replace (startsWith (cu "#" :: [r1; r2; g1; g2; b1; b2] ++ rest)
               (lit "#")) with true by (vm_compute; reflexivity).
    replace (remove_first (cu "#")
               (cu "#" :: [r1; r2; g1; g2; b1; b2] ++ rest))
      with ([r1; r2; g1; g2; b1; b2] ++ rest) by reflexivity.
    cbv zeta.
    destruct (@hex_channels r1 r2 g1 g2 b1 b2 r r' g g' b b' rest
                Hr Hr' Hg Hg' Hb Hb') as (-> & -> & ->).
    reflexivity. }
  rewrite !E.
  apply addAlpha_rgba; apply decimal_byte.
  - apply hexval_bound in Hr, Hr'. lia.
  - apply hexval_bound in Hg, Hg'. lia.
  - apply hexval_bound in Hb, Hb'. lia.
Qed.

(** X10, witness: [#3b82f6], blended with 0.3 and then with 0.1. *)
Lemma addAlpha_twice_witness :
  MsuBadge.addAlpha lexical
    (MsuBadge.addAlpha lexical
       (cu "#" :: [cu "3"; cu "b"; cu "8"; cu "2"; cu "f"; cu "6"] ++ [])
       (lit "0.3"))
    (lit "0.1")
  = MsuBadge.addAlpha lexical
      (cu "#" :: [cu "3"; cu "b"; cu "8"; cu "2"; cu "f"; cu "6"] ++ [])
      (lit "0.1").
Proof.
  apply (@addAlpha_twice lexical (cu "3") (cu "b") (cu "8") (cu "2")
           (cu "f") (cu "6") 3 11 8 2 15 6); reflexivity.
Defined.

(** X11.  A colour that [addAlpha] does not recognise is returned as it
    is: one that starts with neither [#] nor [rgb], such as a colour
    name, and one that starts with [rgb] but holds fewer than three runs
    of digits. *)
Theorem addAlpha_unrecognised (P : Platform) (color alpha : jsstring) :
  startsWith color (lit "#") = false ->
  startsWith color (lit "rgb") = false \/
  (List.length (MsuBadge.digit_runs color []) < 3)%nat ->
  MsuBadge.addAlpha P color alpha = color.
Proof.
  intros H1 H2. unfold MsuBadge.addAlpha. rewrite H1.
  destruct H2 as [->|H2]; [reflexivity|].
  destruct (startsWith color (lit "rgb")); [|reflexivity].
  destruct (MsuBadge.digit_runs color []) as [|m0 [|m1 [|m2 more]]];
    try reflexivity.
  cbn in H2. lia.
Qed.

(** X11, witness: the colour name [red]. *)
Lemma addAlpha_unrecognised_witness :
  MsuBadge.addAlpha lexical (lit "red") (lit "0.1") = lit "red".
Proof.
  apply (@addAlpha_unrecognised lexical (lit "red") (lit "0.1")).
  - vm_compute. reflexivity.
  - left. vm_compute. reflexivity.
Defined.

(** ** [MsuBadge.getCustomColorStyles] and [MsuBadge.render] *)

(** X12.  For a colour that [addAlpha] does not recognise, the custom
    styles hold no transparency: in the light theme the background, the
    text and the border all have the colour itself, and in the dark theme
    both ends of the gradient and the border have it. *)
Theorem custom_styles_of_unrecognised_color (P : Platform)
  (color : jsstring) :
  startsWith color (lit "#") = false ->
  startsWith color (lit "rgb") = false ->
  MsuBadge.getCustomColorStyles P color false =
  lit "
                background-color: " ++ color ++ lit ";
                color: " ++ color ++ lit ";
                border: 1px solid " ++ color ++ lit ";
            "
  /\ MsuBadge.getCustomColorStyles P color true =
     lit "
                background: linear-gradient(90deg, "
     ++ color ++ lit ", " ++ color ++ lit ");
                color: #ffffff;
                border: 1px solid " ++ color ++ lit ";
            ".
Proof.
  intros H1 H2. unfold MsuBadge.getCustomColorStyles.
  rewrite !(@addAlpha_other P color _ H1 H2).
  split; reflexivity.
Qed.

(** X12, witness: the colour name [red]. *)
Lemma custom_styles_of_unrecognised_color_witness :
  MsuBadge.getCustomColorStyles lexical (lit "red") false =
  lit "
                background-color: " ++ lit "red" ++ lit ";
                color: " ++ lit "red" ++ lit ";
                border: 1px solid " ++ lit "red" ++ lit ";
            "
  /\ MsuBadge.getCustomColorStyles lexical (lit "red") true =
     lit "
                background: linear-gradient(90deg, "
     ++ lit "red" ++ lit ", " ++ lit "red" ++ lit ");
                color: #ffffff;
                border: 1px solid " ++ lit "red" ++ lit ";
            ".
Proof.
  apply (@custom_styles_of_unrecognised_color lexical (lit "red"));
    vm_compute; reflexivity.
Defined.

(** * Further properties of navigation.js *)

(** ** The theme flag *)

(** X13.  Whatever the document attribute and the persisted value were,
    absent or invalid included, one toggle leaves both equal and [light]
    or [dark], with the buttons showing that value; from then on two
    toggles change nothing. *)
Theorem toggle_repairs_the_flag (st : Theme) :
  (exists f : ThemeFlag,
     MsuNavbar.toggleTheme st
     = theme_state f (MsuNavbar.updateThemeButtons (Some (flag_name f)))) /\
  MsuNavbar.toggleTheme (MsuNavbar.toggleTheme (MsuNavbar.toggleTheme st))
  = MsuNavbar.toggleTheme st.
Proof.
  assert (exists f : ThemeFlag,
            MsuNavbar.toggleTheme st
            = theme_state f
                (MsuNavbar.updateThemeButtons (Some (flag_name f))))
    as [f Ef].
  { unfold MsuNavbar.toggleTheme.
    destruct (attr_is (data_theme st) (lit "light"));
      [exists dark|exists light]; reflexivity. }
  split; [now exists f|].
  rewrite Ef. destruct f; vm_compute; reflexivity.
Qed.

(** X14.  What a toggle persists is what the next page reads: on a fresh
    document, whose attribute and buttons are anything, the setup of the
    navbar brings back the theme state the toggle left. *)
Theorem setup_restores_the_toggled_theme (st : Theme)
  (dataTheme : option jsstring) (b : ThemeButtons) :
  MsuNavbar.setupThemeToggle
    {| data_theme := dataTheme;
       stored := stored (MsuNavbar.toggleTheme st);
       buttons := b |}
  = MsuNavbar.toggleTheme st.
Proof.
  unfold MsuNavbar.toggleTheme.
  destruct (attr_is (data_theme st) (lit "light")); vm_compute; reflexivity.
Qed.

(** ** The theme observer of card.js *)

Lemma badge_render_twice (P : Platform) (t1 t2 : option jsstring)
  (b : Badge) :
  badge_render P t2 (badge_render P t1 b) = badge_render P t2 b.
Proof. reflexivity. Qed.

Lemma map_badge_render_twice (P : Platform) (t1 t2 : option jsstring)
  (l : list Badge) :
  List.map (badge_render P t2) (List.map (badge_render P t1) l)
  = List.map (badge_render P t2) l.
Proof. rewrite map_map. reflexivity. Qed.

(** The observer renders every badge, or none. *)
Lemma observer_cases (P : Platform) (mutations : list (option jsstring))
  (dataTheme : option jsstring) (badges : list Badge) :
  observer P mutations dataTheme badges =
  if existsb (fun m => attr_is m (lit "data-theme")) mutations
  then List.map (badge_render P dataTheme) badges
  else badges.
Proof.
  unfold observer. revert badges.
  induction mutations as [|m ms IH]; intros badges; [reflexivity|].
  cbn [fold_left existsb]. rewrite IH.
  destruct (attr_is m (lit "data-theme")); cbn [orb]; [|reflexivity].
  destruct (existsb _ ms); [|reflexivity].
  apply map_badge_render_twice.
Qed.

(** X15.  After the observer has been called with at least one record of
    [data-theme], no badge shows a stale theme: the badges are the same,
    in the same order, with the same attributes, and the markup of each is
    what [render] gives for the theme of the document at that moment,
    whatever its markup was. *)
Theorem observer_refreshes_every_badge (P : Platform)
  (mutations : list (option jsstring)) (dataTheme : option jsstring)
  (badges : list Badge) :
  In (Some (lit "data-theme")) mutations ->
  observer P mutations dataTheme badges =
  List.map
    (fun b =>
       {| badge_variant := badge_variant b;
          badge_color := badge_color b;
          shadowRoot :=
            MsuBadge.render P (badge_variant b) (badge_color b) dataTheme |})
    badges.
Proof.
  intros Hin. rewrite observer_cases.
  assert (existsb (fun m => attr_is m (lit "data-theme")) mutations = true)
    as ->; [|reflexivity].
  apply existsb_exists. eexists. split; [exact Hin|].
  vm_compute. reflexivity.
Qed.

(** X15, witness: two records, the second of [data-theme], and one badge
    with stale markup. *)
Lemma observer_refreshes_every_badge_witness :
  observer lexical [None; Some (lit "data-theme")] (Some (lit "dark"))
    [{| badge_variant := Some (lit "purple"); badge_color := None;
        shadowRoot := lit "stale" |}]
  = List.map
      (fun b =>
         {| badge_variant := badge_variant b;
            badge_color := badge_color b;
            shadowRoot :=
              MsuBadge.render lexical (badge_variant b) (badge_color b)
                (Some (lit "dark")) |})
      [{| badge_variant := Some (lit "purple"); badge_color := None;
          shadowRoot := lit "stale" |}].
Proof.
  apply (@observer_refreshes_every_badge lexical
           [None; Some (lit "data-theme")]).
  right. left. reflexivity.
Defined.

(** X16.  On a page whose document attribute is [light] or [dark], a
    click on a theme toggle renders every mounted badge for the other
    theme, whatever its markup was.  Two clicks give back the attribute,
    leave it persisted and shown by the buttons, and render every badge
    for it.  The page is the one there was exactly when the persisted
    value was equal to the attribute, the buttons showed it and the markup
    of every badge was up to date. *)
Theorem two_clicks_restore_the_badges (P : Platform) (f : ThemeFlag)
  (s : option jsstring) (b : ThemeButtons) (badges : list Badge) :
  click_toggle P
    {| page_theme := attribute_state f s b; page_badges := badges |}
  = {| page_theme :=
         theme_state (flip f)
           (MsuNavbar.updateThemeButtons (Some (flag_name (flip f))));
       page_badges :=
         List.map (badge_render P (Some (flag_name (flip f)))) badges |} /\
  click_toggle P
    (click_toggle P
       {| page_theme := attribute_state f s b; page_badges := badges |})
  = {| page_theme :=
         theme_state f (MsuNavbar.updateThemeButtons (Some (flag_name f)));
       page_badges := List.map (badge_render P (Some (flag_name f))) badges |}
  /\
  (click_toggle P
     (click_toggle P
        {| page_theme := attribute_state f s b; page_badges := badges |})
   = {| page_theme := attribute_state f s b; page_badges := badges |}
   <-> s = Some (flag_name f) /\
       b = MsuNavbar.updateThemeButtons (Some (flag_name f)) /\
       List.map (badge_render P (Some (flag_name f))) badges = badges).
Proof.
  assert (existsb (fun m => attr_is m (lit "data-theme"))
            [Some (lit "data-theme")] = true) as Hrec
    by (vm_compute; reflexivity).
  assert (MsuNavbar.toggleTheme (attribute_state f s b)
          = theme_state (flip f)
              (MsuNavbar.updateThemeButtons (Some (flag_name (flip f)))))
    as E1 by (destruct f; vm_compute; reflexivity).
  assert (MsuNavbar.toggleTheme
            (theme_state (flip f)
               (MsuNavbar.updateThemeButtons (Some (flag_name (flip f)))))
          = theme_state f (MsuNavbar.updateThemeButtons (Some (flag_name f))))
    as E2 by (destruct f; vm_compute; reflexivity).
  assert (click_toggle P
            {| page_theme := attribute_state f s b; page_badges := badges |}
          = {| page_theme :=
                 theme_state (flip f)
                   (MsuNavbar.updateThemeButtons
                      (Some (flag_name (flip f))));
               page_badges :=
                 List.map (badge_render P (Some (flag_name (flip f))))
                   badges |}) as C1.
  { unfold click_toggle. cbn [page_theme page_badges].
    rewrite observer_cases, Hrec, E1. reflexivity. }
  assert (click_toggle P
            (click_toggle P
               {| page_theme := attribute_state f s b;
                  page_badges := badges |})
          = {| page_theme :=
                 theme_state f
                   (MsuNavbar.updateThemeButtons (Some (flag_name f)));
               page_badges :=
                 List.map (badge_render P (Some (flag_name f))) badges |})
    as C2.
  { rewrite C1. unfold click_toggle. cbn [page_theme page_badges].
    rewrite observer_cases, Hrec, E2, map_badge_render_twice. reflexivity. }
  split; [exact C1|]. split; [exact C2|]. rewrite C2.
  unfold theme_state, attribute_state. split.
  - intros H. injection H as Hs Hb Hbadges. now repeat split.
  - intros (-> & -> & ->). reflexivity.
Qed.

(** ** The drawer *)

Lemma classList_remove_absent (token : jsstring) (tokens : list jsstring) :
  existsb (str_eqb token) tokens = false ->
  MsuNavbar.classList_remove token tokens = tokens.
Proof.
  unfold MsuNavbar.classList_remove.
  induction tokens as [|t tokens IH]; [reflexivity|].
  cbn [existsb List.filter]. rewrite orb_false_iff. intros [Ht H].
  assert (str_eqb t token = false) as ->.
  { destruct (str_eqb t token) eqn:E; [|reflexivity].
    apply str_eqb_eq in E. subst.
    rewrite (proj2 (str_eqb_eq token token) eq_refl) in Ht. discriminate. }
  cbn [negb]. now rewrite IH.
Qed.

Lemma classList_remove_add (token : jsstring) (tokens : list jsstring) :
  existsb (str_eqb token) tokens = false ->
  MsuNavbar.classList_remove token (MsuNavbar.classList_add token tokens)
  = tokens.
Proof.
  intros H. unfold MsuNavbar.classList_add. rewrite H.
  unfold MsuNavbar.classList_remove. rewrite filter_app.
  fold (MsuNavbar.classList_remove token tokens).
  rewrite (classList_remove_absent _ _ H). cbn [List.filter].
  rewrite (proj2 (str_eqb_eq token token) eq_refl). cbn [negb].
  apply app_nil_r.
Qed.

Lemma classList_add_add (token : jsstring) (tokens : list jsstring) :
  MsuNavbar.classList_add token (MsuNavbar.classList_add token tokens)
  = MsuNavbar.classList_add token tokens.
Proof.
  unfold MsuNavbar.classList_add.
  destruct (existsb (str_eqb token) tokens) eqn:E.
  - now rewrite E.
  - rewrite existsb_app. cbn [existsb].
    rewrite (proj2 (str_eqb_eq token token) eq_refl), E. reflexivity.
Qed.

(** On a drawer that is not open, an event makes the one before it
    forgotten. *)
Lemma drawer_step_step (d : MsuNavbar.Drawer) (e1 e2 : DrawerEvent) :
  existsb (str_eqb (lit "active")) (MsuNavbar.overlay_classes d) = false ->
  existsb (str_eqb (lit "active")) (MsuNavbar.menu_classes d) = false ->
  drawer_step (drawer_step d e1) e2 = drawer_step d e2.
Proof.
  intros Ho Hm.
  destruct e1, e2; unfold drawer_step, MsuNavbar.openMobileMenu,
    MsuNavbar.closeMobileMenu;
    cbn [MsuNavbar.overlay_classes MsuNavbar.menu_classes
         MsuNavbar.body_overflow MsuNavbar.mobileMenuOpen];
    rewrite ?classList_add_add, ?(classList_remove_add _ _ Ho),
      ?(classList_remove_add _ _ Hm), ?(classList_remove_absent _ _ Ho),
      ?(classList_remove_absent _ _ Hm);
    reflexivity.
Qed.

(** X17.  The drawer has no memory: after any sequence of openings and
    closings of a drawer that was not open, its classes, the scroll lock
    of the body and the field [mobileMenuOpen] are what the last event
    alone gives.  Opening twice is opening once, and closing an open
    drawer gives back the classes it had. *)
Theorem drawer_follows_the_last_event (d : MsuNavbar.Drawer)
  (events : list DrawerEvent) (e : DrawerEvent) :
  existsb (str_eqb (lit "active")) (MsuNavbar.overlay_classes d) = false ->
  existsb (str_eqb (lit "active")) (MsuNavbar.menu_classes d) = false ->
  fold_left drawer_step (events ++ [e]) d = drawer_step d e /\
  MsuNavbar.overlay_classes (drawer_step d CloseDrawer)
  = MsuNavbar.overlay_classes d /\
  MsuNavbar.menu_classes (drawer_step d CloseDrawer)
  = MsuNavbar.menu_classes d.
Proof.
  intros Ho Hm. split.
  - revert e. induction events as [|e' events IH] using rev_ind; intros e.
    + reflexivity.
    + rewrite fold_left_app. cbn [fold_left]. rewrite IH.
      now apply drawer_step_step.
  - cbn [drawer_step MsuNavbar.closeMobileMenu MsuNavbar.overlay_classes
         MsuNavbar.menu_classes].
    now rewrite (classList_remove_absent _ _ Ho),
      (classList_remove_absent _ _ Hm).
Qed.

(** X17, witness: the rendered drawer, opened, closed by a link, opened
    again and closed by the overlay. *)
Lemma drawer_follows_the_last_event_witness :
  fold_left drawer_step
    ([OpenDrawer; CloseDrawer; OpenDrawer] ++ [CloseDrawer])
    MsuNavbar.rendered_drawer
  = drawer_step MsuNavbar.rendered_drawer CloseDrawer /\
  MsuNavbar.overlay_classes (drawer_step MsuNavbar.rendered_drawer CloseDrawer)
  = MsuNavbar.overlay_classes MsuNavbar.rendered_drawer /\
  MsuNavbar.menu_classes (drawer_step MsuNavbar.rendered_drawer CloseDrawer)
  = MsuNavbar.menu_classes MsuNavbar.rendered_drawer.
Proof.
  apply (@drawer_follows_the_last_event MsuNavbar.rendered_drawer
           [OpenDrawer; CloseDrawer; OpenDrawer] CloseDrawer);
    vm_compute; reflexivity.
Defined.

(** ** Link lists of the wrong shape *)

(** X18.  For a valid site-wide list [L1] and a [page-links] that holds
    the valid list [L2], the footer renders as quick links the entries of
    [L1 ++ L2], in their order, whose address neither holds [#home] nor is
    exactly [index.html], each with its address and text as they are,
    inside the fixed markup with the year. *)
Theorem footer_renders_the_kept_links (P : Platform)
  (L1 L2 : list LinkEntry) (pageLinksAttr : option jsstring) (year : N) :
  parsePageLinks pageLinksAttr = ret (JArr (List.map entry L2)) ->
  MsuFooter.connectedCallback P (List.map entry L1) year pageLinksAttr
  = ret (MsuFooter.footer_html_1 ++ siteConfig.description
         ++ MsuFooter.footer_html_2
         ++ List.concat
              (List.map quickItem
                 (List.filter footer_keeps_entry (L1 ++ L2)))
         ++ MsuFooter.footer_html_3 ++ siteConfig.email
         ++ MsuFooter.footer_html_4 ++ siteConfig.email
         ++ MsuFooter.footer_html_5 ++ decimal year
         ++ MsuFooter.footer_html_6).
Proof.
  intros Hp. unfold MsuFooter.connectedCallback.
  rewrite (footer_links_filtered L1 L2 _ Hp). cbn [bind ret].
  unfold MsuFooter.render, MsuFooter.quickLinks.
  rewrite (mapJs_total _ _ quickItem _ (linkItem_entry P _ _ _)).
  reflexivity.
Qed.

(** X18, witness: a page with a link to its own top and a link to a
    section. *)
Lemma footer_renders_the_kept_links_witness :
  MsuFooter.connectedCallback lexical (List.map entry site_entries) 2025
    (Some (lit "[{~href~:~#home~,~text~:~Top~},{~href~:~#about~,~text~:~About~}]"))
  = ret (MsuFooter.footer_html_1 ++ siteConfig.description
         ++ MsuFooter.footer_html_2
         ++ List.concat
              (List.map quickItem
                 (List.filter footer_keeps_entry
                    (site_entries
                     ++ [(lit "#home", lit "Top");
                         (lit "#about", lit "About")])))
         ++ MsuFooter.footer_html_3 ++ siteConfig.email
         ++ MsuFooter.footer_html_4 ++ siteConfig.email
         ++ MsuFooter.footer_html_5 ++ decimal 2025
         ++ MsuFooter.footer_html_6).
Proof.
  apply (@footer_renders_the_kept_links lexical site_entries
           [(lit "#home", lit "Top"); (lit "#about", lit "About")]).
  vm_compute. reflexivity.
Defined.

Lemma keeps_error (l : JsVal) (e : JsError) :
  MsuFooter.keeps l = inl e -> e = TypeError.
Proof.
  unfold MsuFooter.keeps. intros H.
  destruct (getProp l (lit "href")) as [e1|h] eqn:Eh.
  - destruct l; inv Eh. now inv H.
  - cbn [bind] in H. destruct h as [[| | | | |]|]; now inv H.
Qed.

Lemma filterJs_throws {A} (f : A -> Js bool) (l : list A) (x : A) :
  (forall y e, f y = inl e -> e = TypeError) ->
  In x l -> f x = throw TypeError -> filterJs f l = throw TypeError.
Proof.
  intros Hf. induction l as [|y l IH]; intros Hin Hx; [easy|].
  cbn [filterJs]. destruct (f y) as [e|keep] eqn:Ey.
  - apply Hf in Ey. now subst.
  - cbn [bind]. destruct Hin as [->|Hin].
    + rewrite Hx in Ey. discriminate.
    + now rewrite (IH Hin Hx).
Qed.

(** X19.  The footer needs an address on every entry: when one entry of
    the merged list, from the site or from the page, has no [href], be it
    an object without the key or a character of a JSON string, the footer
    throws a [TypeError] and renders nothing. *)
Theorem footer_entry_without_href_throws (P : Platform)
  (siteLinks page : list JsVal) (pageLinksAttr : option jsstring)
  (v x : JsVal) (year : N) :
  parsePageLinks pageLinksAttr = ret v -> spread v = ret page ->
  In x (siteLinks ++ page) -> getProp x (lit "href") = ret None ->
  MsuFooter.connectedCallback P siteLinks year pageLinksAttr
  = throw TypeError.
Proof.
  intros Hp Hs Hin Hx.
  unfold MsuFooter.connectedCallback, MsuFooter.allLinks.
  rewrite Hp. cbn [bind ret]. rewrite Hs. cbn [bind ret].
  rewrite (filterJs_throws _ _ x keeps_error Hin); [reflexivity|].
  unfold MsuFooter.keeps. rewrite Hx. reflexivity.
Qed.

(** X19, witness: a page entry with a text and no address. *)
Lemma footer_entry_without_href_throws_witness :
  MsuFooter.connectedCallback lexical defaultSiteLinks 2025
    (Some (lit "[{~text~:~About~}]"))
  = throw TypeError.
Proof.
  apply (@footer_entry_without_href_throws lexical defaultSiteLinks
           [JObj [(lit "text", JStr (lit "About"))]]
           (Some (lit "[{~text~:~About~}]"))
           (JArr [JObj [(lit "text", JStr (lit "About"))]])
           (JObj [(lit "text", JStr (lit "About"))])).
  - vm_compute. reflexivity.
  - reflexivity.
  - right. right. left. reflexivity.
  - vm_compute. reflexivity.
Defined.

(** X20.  Well-formed JSON that is neither an array nor a string cannot
    be spread: with such a [page-links], a single entry object for
    instance, the navbar and the footer both throw a [TypeError]. *)
Theorem page_links_not_iterable_throws (P : Platform)
  (siteLinks : list JsVal) (pageLinksAttr : option jsstring) (v : JsVal)
  (st : Theme) (year : N) :
  parsePageLinks pageLinksAttr = ret v ->
  (forall es, v <> JArr es) -> (forall s, v <> JStr s) ->
  MsuNavbar.connectedCallback P siteLinks pageLinksAttr st = throw TypeError
  /\ MsuFooter.connectedCallback P siteLinks year pageLinksAttr
     = throw TypeError.
Proof.
  intros Hp Ha Hs.
  unfold MsuNavbar.connectedCallback, MsuNavbar.allLinks,
    MsuFooter.connectedCallback, MsuFooter.allLinks.
  rewrite Hp. cbn [bind ret].
  destruct v as [| | | s | es |]; try (split; reflexivity).
  - now destruct (Hs s).
  - now destruct (Ha es).
Qed.

(** X20, witness: one entry, not in brackets. *)
Lemma page_links_not_iterable_throws_witness :
  MsuNavbar.connectedCallback lexical defaultSiteLinks
    (Some (lit "{~href~:~#about~,~text~:~About~}"))
    {| data_theme := None; stored := None;
       buttons := MsuNavbar.rendered_buttons |}
  = throw TypeError
  /\ MsuFooter.connectedCallback lexical defaultSiteLinks 2025
       (Some (lit "{~href~:~#about~,~text~:~About~}"))
     = throw TypeError.
Proof.
  apply (@page_links_not_iterable_throws lexical defaultSiteLinks
           (Some (lit "{~href~:~#about~,~text~:~About~}"))
           (link (lit "#about") (lit "About"))).
  - vm_compute. reflexivity.
  - discriminate.
  - discriminate.
Defined.

Lemma mapJs_app {A B} (f : A -> Js B) (l1 l2 : list A) (y1 y2 : list B) :
  mapJs f l1 = ret y1 -> mapJs f l2 = ret y2 ->
  mapJs f (l1 ++ l2) = ret (y1 ++ y2).
Proof.
  revert y1; induction l1 as [|x l1 IH]; intros y1 H1 H2.
  - inv H1. exact H2.
  - cbn [mapJs app] in *. destruct (f x) as [e|y]; [discriminate|].
    cbn [bind] in *. destruct (mapJs f l1) as [e|ys]; [discriminate|].
    inv H1. now rewrite (IH _ eq_refl H2).
Qed.

(** X21.  A [page-links] that is a JSON string is spread into its
    characters, and a character has neither address nor text: the navbar
    renders, after the site-wide links, one link per code point of the
    string, each with the address and the text [undefined], in both of
    its lists. *)
Theorem navbar_string_page_links (P : Platform) (L1 : list LinkEntry)
  (pageLinksAttr : option jsstring) (s : jsstring) (st : Theme) :
  parsePageLinks pageLinksAttr = ret (JStr s) ->
  MsuNavbar.connectedCallback P (List.map entry L1) pageLinksAttr st
  = ret (MsuNavbar.navbar_html_1 ++ siteConfig.brandName
         ++ MsuNavbar.navbar_html_2
         ++ List.concat
              (List.map desktopItem
                 (L1 ++ List.map (fun _ => (lit "undefined", lit "undefined"))
                          (code_points s)))
         ++ MsuNavbar.navbar_html_3 ++ siteConfig.brandName
         ++ MsuNavbar.navbar_html_4
         ++ List.concat
              (List.map mobileItem
                 (L1 ++ List.map (fun _ => (lit "undefined", lit "undefined"))
                          (code_points s)))
         ++ MsuNavbar.navbar_html_5,
         MsuNavbar.setupThemeToggle st).
Proof.
  intros Hp.
  assert (forall before between after,
            mapJs (linkItem P before between after)
              (List.map entry L1 ++ List.map JStr (code_points s))
            = ret (List.map (fun e => before ++ fst e ++ between ++ snd e
                                        ++ after)
                     (L1 ++ List.map (fun _ => (lit "undefined",
                                                lit "undefined"))
                             (code_points s)))) as Hitems.
  { intros before between after. rewrite map_app. apply mapJs_app.
    - apply mapJs_total, linkItem_entry.
    - rewrite map_map. apply mapJs_total. reflexivity. }
  unfold MsuNavbar.connectedCallback, MsuNavbar.allLinks.
  rewrite Hp. cbn [bind ret spread].
  unfold MsuNavbar.render, MsuNavbar.desktopNavLinks,
    MsuNavbar.mobileNavLinks.
  rewrite !Hitems. reflexivity.
Qed.

(** X21, witness: the string [ab] in quotes. *)
Lemma navbar_string_page_links_witness :
  MsuNavbar.connectedCallback lexical (List.map entry site_entries)
    (Some (lit "~ab~"))
    {| data_theme := None; stored := None;
       buttons := MsuNavbar.rendered_buttons |}
  = ret (MsuNavbar.navbar_html_1 ++ siteConfig.brandName
         ++ MsuNavbar.navbar_html_2
         ++ List.concat
              (List.map desktopItem
                 (site_entries
                  ++ List.map (fun _ => (lit "undefined", lit "undefined"))
                       (code_points (lit "ab"))))
         ++ MsuNavbar.navbar_html_3 ++ siteConfig.brandName
         ++ MsuNavbar.navbar_html_4
         ++ List.concat
              (List.map mobileItem
                 (site_entries
                  ++ List.map (fun _ => (lit "undefined", lit "undefined"))
                       (code_points (lit "ab"))))
         ++ MsuNavbar.navbar_html_5,
         MsuNavbar.setupThemeToggle
           {| data_theme := None; stored := None;
              buttons := MsuNavbar.rendered_buttons |}).
Proof.
  apply (@navbar_string_page_links lexical site_entries
           (Some (lit "~ab~")) (lit "ab")).
  vm_compute. reflexivity.
Defined.

(** * Further edge cases of the card *)

(** X22, witness: a title with a quote, an apostrophe and a slash. *)
Lemma escapeHtml_plain_witness :
  escapeHtml (lit "Rock'n ~Roll~ 1/2") = lit "Rock'n ~Roll~ 1/2".
Proof.
  apply (@escapeHtml_plain (lit "Rock'n ~Roll~ 1/2")).
  vm_compute. reflexivity.
Defined.

Lemma forEach_throws {A} (body : jsstring -> A -> Js jsstring)
  (l : list A) (x : A) (html : jsstring) :
  (forall h y e, body h y = inl e -> e = TypeError) ->
  In x l -> (forall h, body h x = throw TypeError) ->
  forEach body l html = throw TypeError.
Proof.
  intros Hb. revert html; induction l as [|y l IH]; intros html Hin Hx;
    [easy|].
  cbn [forEach]. destruct (body html y) as [e|h] eqn:Ey.
  - apply Hb in Ey. now subst.
  - cbn [bind]. destruct Hin as [->|Hin].
    + rewrite Hx in Ey. discriminate.
    + now apply IH.
Qed.

(** X23.  A [null] among the entries of [color-badges] breaks the card:
    the callback reads [badge.text] of it, and [render] throws a
    [TypeError], whatever the other attributes are. *)
Theorem card_null_color_badge_throws (P : Platform) (a : Attrs)
  (entries : list JsVal) :
  JSON.parse (attr_or (color_badges a) (lit "[]")) = Some (JArr entries) ->
  In JNull entries ->
  snd (render P a) = throw TypeError.
Proof.
  intros Hp Hin. rewrite render_shape. unfold parsed at 1. rewrite Hp.
  assert (badgeContainer P (JArr entries) (parsed (badges a)) []
          = throw TypeError) as ->; [|reflexivity].
  unfold badgeContainer. cbn [length_positive].
  destruct entries as [|e0 entries]; [easy|]. cbn [bind ret forEach_val].
  rewrite (forEach_throws _ _ JNull _ (colorBadge_error P) Hin);
    reflexivity.
Qed.

(** X23, witness: a colour list whose second entry is [null]. *)
Lemma card_null_color_badge_throws_witness :
  snd (render lexical
         (set_color_badges sample_card
            (lit "[{~text~:~Build~,~color~:~purple~}, null]")))
  = throw TypeError.
Proof.
  apply (@card_null_color_badge_throws lexical
           (set_color_badges sample_card
              (lit "[{~text~:~Build~,~color~:~purple~}, null]"))
           [JObj [(lit "text", JStr (lit "Build"));
                  (lit "color", JStr (lit "purple"))]; JNull]).
  - vm_compute. reflexivity.
  - right. left. reflexivity.
Defined.
